(** * symphony_room_modifier: a shallow embedding and its properties

    The development follows [src/symphony_room_modifier/symphony_room_modifier.py].
    Python [str] values are modelled as [string] (characters are code points
    below 256), model objects of the BDK ([V3RoomAttributes],
    [V3RoomSystemInfo]) as finite maps from attribute names to Python values,
    CSV rows (insertion-ordered [dict]s) as association lists, and the
    asynchronous methods of [SymphonyRoomModifier] as computations in a
    state-and-exception monad over the remote pod. *)

From Stdlib Require Import ZArith Ascii String List Bool Lia DecimalString.
From stdpp Require Import base option list gmap strings pretty.

Local Open Scope string_scope.
Local Open Scope list_scope.

(** ** Python strings *)

Module PyStr.

Definition code (c : ascii) : nat := nat_of_ascii c.

(** [str.isspace] on one character, for code points below 256. *)
Definition isspace (c : ascii) : bool :=
  let n := code c in
  (((9 <=? n) && (n <=? 13)) || ((28 <=? n) && (n <=? 32))
   || (n =? 133) || (n =? 160))%nat.

(** [str.lower] on one character, for code points below 256. *)
Definition lower_char (c : ascii) : ascii :=
  let n := code c in
  if (((65 <=? n) && (n <=? 90))
      || ((192 <=? n) && (n <=? 222) && negb (n =? 215)))%nat
  then ascii_of_nat (n + 32) else c.

Fixpoint map (f : ascii -> ascii) (s : string) : string :=
  match s with
  | EmptyString => EmptyString
  | String c r => String (f c) (map f r)
  end.

(** [s.lower()] *)
Definition lower (s : string) : string := map lower_char s.

(** [s.replace(a, b)] for one-character [a] and [b]. *)
Definition replace (a b : ascii) (s : string) : string :=
  map (fun c => if Ascii.eqb c a then b else c) s.

(** Removal of the longest suffix whose characters all satisfy [p]. *)
Fixpoint rstrip_by (p : ascii -> bool) (s : string) : string :=
  match s with
  | EmptyString => EmptyString
  | String c r =>
      match rstrip_by p r with
      | EmptyString => if p c then EmptyString else String c EmptyString
      | r' => String c r'
      end
  end.

Fixpoint lstrip_by (p : ascii -> bool) (s : string) : string :=
  match s with
  | EmptyString => EmptyString
  | String c r => if p c then lstrip_by p r else s
  end.

(** [s.rstrip(chars)] for a one-character [chars]. *)
Definition rstrip_char (a : ascii) (s : string) : string :=
  rstrip_by (fun c => Ascii.eqb c a) s.

(** [s.rstrip()] and [s.strip()] *)
Definition rstrip (s : string) : string := rstrip_by isspace s.
Definition strip (s : string) : string := lstrip_by isspace (rstrip_by isspace s).

(** [s.startswith(p)], [s.endswith(p)] and [p in s]. *)
Definition startswith (p s : string) : bool := String.prefix p s.

Fixpoint contains (p s : string) : bool :=
  String.prefix p s
  || match s with
     | EmptyString => false
     | String _ r => contains p r
     end.

Fixpoint endswith (p s : string) : bool :=
  String.eqb p s
  || match s with
     | EmptyString => false
     | String _ r => endswith p r
     end.

(** The last character of a string, if any. *)
Fixpoint last (s : string) : option ascii :=
  match s with
  | EmptyString => None
  | String c EmptyString => Some c
  | String _ r => last r
  end.

(** [c in s] for a character. *)
Fixpoint has_char (a : ascii) (s : string) : bool :=
  match s with
  | EmptyString => false
  | String c r => Ascii.eqb c a || has_char a r
  end.

(** [x in (a, b, ...)] on a tuple of strings. *)
Definition in_tuple (x : string) (t : list string) : bool :=
  existsb (String.eqb x) t.

End PyStr.

(** ** Python values and exceptions *)

(** The values held by model attributes and CSV cells. *)
Inductive value :=
| VNone
| VBool (b : bool)
| VStr (s : string)
| VInt (z : Z).

(** Python [==] on these values ([True == 1] and [False == 0] hold). *)
Definition py_eq (v w : value) : bool :=
  match v, w with
  | VNone, VNone => true
  | VBool a, VBool b => Bool.eqb a b
  | VStr a, VStr b => String.eqb a b
  | VInt a, VInt b => Z.eqb a b
  | VBool a, VInt b | VInt b, VBool a => Z.eqb (if a then 1 else 0) b
  | _, _ => false
  end.

Definition is_none (v : value) : bool :=
  match v with VNone => true | _ => false end.

(** Exceptions.  [ApiException text message] is the BDK exception whose
    [body] is a JSON object, [message] being its ['message'] member when there
    is one and [text] what [str] gives; the other constructors have no [body]
    that [json.loads] accepts. *)
Inductive exn :=
| ApiException (text : string) (message : option string)
| TypeError (text : string)
| AttributeError (text : string)
| KeyError (key : string)
| OtherError (text : string).

(** [str(err)] *)
Definition exn_str (e : exn) : string :=
  match e with
  | ApiException text _ | TypeError text | AttributeError text
  | OtherError text => text
  | KeyError key => "'" ++ key ++ "'"
  end.

Inductive result (A : Type) :=
| Ok (a : A)
| Raise (e : exn).
Arguments Ok {A} a.
Arguments Raise {A} e.

(** ** Module-level helpers *)

(** [_make_b64_id_safe]:
    [id.replace("+","-").replace("/","_").rstrip("=").rstrip()] *)
Definition _make_b64_id_safe (id : string) : string :=
  PyStr.rstrip
    (PyStr.rstrip_char "="
       (PyStr.replace "/" "_" (PyStr.replace "+" "-" id))).

(** [_bool_to_string] on a [bool]: [str(val).lower()]. *)
Definition _bool_to_string (b : bool) : string :=
  PyStr.lower (if b then "True" else "False").

(** The message of the [TypeError] that [raise None] produces. *)
Definition RAISE_NONE : exn :=
  TypeError "exceptions must derive from BaseException".

(** [_string_to_bool] *)
Definition _string_to_bool (val : string) : result bool :=
  let val := PyStr.lower val in
  if PyStr.in_tuple val ["y"; "yes"; "t"; "true"; "on"; "1"] then Ok true
  else if PyStr.in_tuple val ["n"; "no"; "f"; "false"; "off"; "0"] then Ok false
  else Raise RAISE_NONE.

(** ** Dictionaries with insertion order *)

Module Dict.

(** A Python [dict] with string keys, in insertion order. *)
Definition t (A : Type) := list (string * A).

Fixpoint get {A} (k : string) (d : t A) : option A :=
  match d with
  | [] => None
  | (k', v) :: r => if String.eqb k k' then Some v else get k r
  end.

Definition mem {A} (k : string) (d : t A) : bool :=
  match get k d with Some _ => true | None => false end.

(** [d[k] = v]: an existing key keeps its position. *)
Fixpoint set {A} (k : string) (v : A) (d : t A) : t A :=
  match d with
  | [] => [(k, v)]
  | (k', v') :: r =>
      if String.eqb k k' then (k, v) :: r else (k', v') :: set k v r
  end.

Definition keys {A} (d : t A) : list string := List.map fst d.

End Dict.

(** ** Model objects *)

(** [V3RoomAttributes] and [V3RoomSystemInfo]: the attributes that are set,
    with their values.  [a in obj] is [is_Some (obj !! a)]. *)
Abbreviation attrs := (gmap string value).

Record V3RoomDetail := {
  room_attributes : attrs;
  room_system_info : attrs;
}.

(** [V2AdminStreamInfo], with [attributes.room_name] flattened. *)
Record V2AdminStreamInfo := {
  id : string;
  room_name : string;
}.

(** [V2AdminStreamFilter] *)
Record V2AdminStreamFilter := {
  stream_types : list string;
  status : option string;
  origin : option string;
  scope : option string;
  privacy : option string;
}.

(** [UserV2], the fields of the session that are used. *)
Record UserV2 := {
  user_id : Z;
  username : string;
}.

(** ** Constants *)

Definition str_of_int (z : Z) : string :=
  NilZero.string_of_int (Z.to_int z).

(** ['User {} is not a member of the room'.format(uid)] *)
Definition NOT_ROOM_MEMBER_MESSAGE (uid : Z) : string :=
  ("User " ++ str_of_int uid ++ " is not a member of the room")%string.
Definition NOT_ROOM_OWNER_MESSAGE : string :=
  "Only room owners can perform this action.".
Definition NOT_ABLE_TO_JOIN_MULTILATERAL_ROOMS : string :=
  "This person is not permitted to join multilateral rooms.".
Definition NOT_ABLE_TO_DEMOTE_ONLY_OWNER : string :=
  "Unable to demote last owner of the chatroom.".
Definition NOT_ABLE_TO_OWN_PUBLIC_ROOM : string :=
  "User is not entitled to be a public room owner".

Definition STREAM_FILTER_TYPE_ROOM : string := "ROOM".
Definition STREAM_FILTER_INTERNAL_ORIGIN_ACTIVE : V2AdminStreamFilter :=
  {| stream_types := [STREAM_FILTER_TYPE_ROOM]; status := Some "ACTIVE";
     origin := Some "INTERNAL"; scope := None; privacy := None |}.

(** CSV column -> (mapped_key, type) *)
Definition CSV_ROOM_TO_ROOM_ATTRIBUTES_MAP : Dict.t (string * string) :=
  [ ("name", ("name", "string*"));
    ("description", ("description", "string"));
    ("membersCanInvite", ("members_can_invite", "bool"));
    ("discoverable", ("discoverable", "bool"));
    ("copyProtected", ("copy_protected", "bool+"));
    ("viewHistory", ("view_history", "bool"));
    ("pinnedMessageId", ("pinned_message_id", "string_b64")) ].

(** attribute -> (mapped_key, is_system_info) *)
Definition ROOM_TO_CSV_ROOM_MAP : Dict.t (string * bool) :=
  [ ("id", ("streamId", true));
    ("name", ("name", false));
    ("description", ("description", false));
    ("members_can_invite", ("membersCanInvite", false));
    ("discoverable", ("discoverable", false));
    ("copy_protected", ("copyProtected", false));
    ("view_history", ("viewHistory", false));
    ("pinned_message_id", ("pinnedMessageId", false)) ].

Definition ROOM_TO_CSV_ROOM_MAP_NON_MODIFIABLE : Dict.t (string * bool) :=
  [ ("public", ("public", false));
    ("read_only", ("readOnly", false));
    ("cross_pod", ("crossPod", false));
    ("multi_lateral_room", ("multiLateralRoom", false));
    ("active", ("active", true));
    ("keywords", ("keywords", false));
    ("created_by_user_id", ("createdByUserId", true));
    ("creation_date", ("creationDate", true)) ].

(** The value of [CSV_STREAM_FIELD_NAMES] when the module has been loaded. *)
Definition CSV_STREAM_FIELD_NAMES_init : list string :=
  List.map (fun kv => fst (snd kv)) ROOM_TO_CSV_ROOM_MAP.

Definition CSV_STREAM_NON_MODIFIABLE_FIELD_NAMES : list string :=
  List.map (fun kv => (fst (snd kv) ++ " (X)")%string) ROOM_TO_CSV_ROOM_MAP_NON_MODIFIABLE.

Definition CSV_RESULTS_STREAM_FIELD_NAMES : list string := ["status"; "reason"].

(** ** Logging *)

Inductive level := DEBUG | INFO | ERROR | EXCEPTION.

(** An argument of a format call in a log message. *)
Inductive log_arg :=
| AStr (s : string)
| AInt (z : Z)
| AVal (v : value)
| AOpt (o : option string)
| AAttrs (a : attrs)
| ADetail (d : V3RoomDetail)
| AFilter (f : V2AdminStreamFilter).

(** A log record: level, format string and the arguments of [format]. *)
Record log_entry := {
  log_level : level;
  log_format : string;
  log_args : list log_arg;
}.

Definition entry (l : level) (fmt : string) (args : list log_arg) : log_entry :=
  {| log_level := l; log_format := fmt; log_args := args |}.

(** ** Comparison and CSV mapping *)

(** [_check_room_modified]: the loop with [break] is an [existsb]. *)
Definition _check_room_modified (old_settings new_settings : attrs) : bool :=
  existsb
    (fun attribute =>
       match new_settings !! attribute, old_settings !! attribute with
       | Some n, Some o => negb (is_none n) && negb (py_eq n o)
       | _, _ => false
       end)
    (Dict.keys ROOM_TO_CSV_ROOM_MAP).

(** The body of the two loops of [_room_details_to_csv_dict]: the cell for
    one attribute. *)
Definition csv_cell (room : V3RoomDetail) (attribute : string) : value :=
  let value :=
    match room_system_info room !! attribute with
    | Some v => v
    | None =>
        match room_attributes room !! attribute with
        | Some v => v
        | None => VNone
        end
    end in
  match value with
  | VNone => VStr ""
  | VBool b => VStr (_bool_to_string b)
  | v => v
  end.

(** [_room_details_to_csv_dict] *)
Definition _room_details_to_csv_dict
    (room : V3RoomDetail) (export_non_modifiable : bool) : Dict.t value :=
  let room_settings :=
    fold_left
      (fun room_settings kv =>
         let '(attribute, (mapped_key, _)) := kv in
         Dict.set mapped_key (csv_cell room attribute) room_settings)
      ROOM_TO_CSV_ROOM_MAP [] in
  if export_non_modifiable then
    fold_left
      (fun room_settings kv =>
         let '(attribute, (mapped_key, _)) := kv in
         Dict.set (mapped_key ++ " (X)")%string (csv_cell room attribute) room_settings)
      ROOM_TO_CSV_ROOM_MAP_NON_MODIFIABLE room_settings
  else room_settings.

(** The two-character strings [""] and ['']. *)
Definition TWO_DQUOTES : string := String "034" (String "034" EmptyString).
Definition TWO_SQUOTES : string := "''".

(** The start of the loop body of [_csv_room_settings_to_v3_room_attributes]:
    the stripped cell, [None] when it is empty, the empty string when it is
    one of the two quote literals. *)
Definition cell_text (raw : string) : option string :=
  let val := PyStr.strip raw in
  if String.eqb val "" then None
  else if String.eqb val TWO_DQUOTES || String.eqb val TWO_SQUOTES then Some ""
  else Some val.

(** [val == ''] for a [val] that is a string or [None]. *)
Definition is_empty_str (val : option string) : bool :=
  match val with Some v => String.eqb v "" | None => false end.

(** One iteration of the loop of [_csv_room_settings_to_v3_room_attributes]
    for a column of [CSV_ROOM_TO_ROOM_ATTRIBUTES_MAP]. *)
Definition parse_cell (stream_id attribute : string) (cell : value)
    (room_map : string * string) (room_attributes : attrs)
    : list log_entry * result attrs :=
  let '(attribute_name, attribute_type) := room_map in
  match cell with
  | VStr raw =>
      let val := cell_text raw in
      let '(logs, val) :=
        if PyStr.endswith "*" attribute_type && is_empty_str val
        then ([entry INFO "[{}] Attribute {} can not be empty. Ignoring..."
                 [AStr stream_id; AStr attribute]], None)
        else ([], val) in
      match val with
      | None => (logs, Ok room_attributes)
      | Some val =>
          if PyStr.startswith "bool" attribute_type then
            match _string_to_bool val with
            | Raise e => (logs, Raise e)
            | Ok b =>
                if PyStr.endswith "+" attribute_type then
                  (logs ++
                   [entry INFO
                      "[{stream_id}] Attribute {attribute} set to {value}. {attribute} can only be set to true... Ignoring..."
                      [AStr stream_id; AStr attribute; AVal cell]],
                   Ok room_attributes)
                else (logs, Ok (<[attribute_name := VBool b]> room_attributes))
            end
          else if PyStr.contains "_b64_" attribute_type then
            (logs, Ok (<[attribute_name := VStr (_make_b64_id_safe val)]> room_attributes))
          else (logs, Ok (<[attribute_name := VStr val]> room_attributes))
      end
  | _ => ([], Raise (AttributeError "strip"))
  end.

(** The loop of [_csv_room_settings_to_v3_room_attributes] over the items of
    the row. *)
Fixpoint parse_row (stream_id : string) (items : Dict.t value)
    (room_attributes : attrs) : list log_entry * result attrs :=
  match items with
  | [] => ([], Ok room_attributes)
  | (attribute, cell) :: rest =>
      match Dict.get attribute CSV_ROOM_TO_ROOM_ATTRIBUTES_MAP with
      | None => parse_row stream_id rest room_attributes
      | Some room_map =>
          match parse_cell stream_id attribute cell room_map room_attributes with
          | (logs, Ok room_attributes) =>
              let '(logs', r) := parse_row stream_id rest room_attributes in
              (logs ++ logs', r)
          | (logs, Raise e) => (logs, Raise e)
          end
      end
  end.

(** [_csv_room_settings_to_v3_room_attributes] *)
Definition _csv_room_settings_to_v3_room_attributes (room_row : Dict.t value)
    : list log_entry * result attrs :=
  match Dict.get "streamId" room_row with
  | None => ([], Raise (KeyError "streamId"))
  | Some (VStr raw) => parse_row (_make_b64_id_safe raw) room_row ∅
  | Some _ => ([], Raise (AttributeError "replace"))
  end.

(** ** The remote pod *)

Module Bdk.

(** The calls made on [bdk.streams()]. *)
Inductive call :=
| list_all_streams_admin (stream_filter : V2AdminStreamFilter)
| get_room_info (room_id : string)
| update_room (room_id : string) (settings : attrs)
| add_member_to_room (uid : Z) (room_id : string)
| remove_member_from_room (uid : Z) (room_id : string)
| promote_user_to_room_owner (uid : Z) (room_id : string)
| demote_owner_to_room_participant (uid : Z) (room_id : string).

(** What a call returns when it does not raise. *)
Definition ret (c : call) : Type :=
  match c with
  | list_all_streams_admin _ => list V2AdminStreamInfo
  | get_room_info _ | update_room _ _ => V3RoomDetail
  | _ => unit
  end.

(** The room a call is about. *)
Definition room (c : call) : option string :=
  match c with
  | list_all_streams_admin _ => None
  | get_room_info i | update_room i _ | add_member_to_room _ i
  | remove_member_from_room _ i | promote_user_to_room_owner _ i
  | demote_owner_to_room_participant _ i => Some i
  end.

(** Calls that change the pod: everything but the two reads. *)
Definition is_write (c : call) : bool :=
  match c with
  | list_all_streams_admin _ | get_room_info _ => false
  | _ => true
  end.

End Bdk.

(** ** The state of a run and its monad *)

Section Modifier.

(** The pod: a state and the response of every call. *)
Context {S : Type}.
Variable pod : forall c : Bdk.call, S -> result (Bdk.ret c) * S.

(** [self.bot_info] *)
Variable bot_info : UserV2.

Record World := {
  pod_state : S;
  calls : list Bdk.call;                     (* the calls made so far *)
  logs : list log_entry;                     (* the records logged so far *)
  CSV_STREAM_FIELD_NAMES : list string;      (* the module-level list *)
  files : gmap string (list (list value));   (* rows written, by path *)
}.

(** State and exceptions; [None] when the recursion of [update_room] has
    used up its fuel. *)
Definition M (A : Type) : Type := World -> option (result A * World).

Definition ret {A} (a : A) : M A := fun w => Some (Ok a, w).
Definition raise {A} (e : exn) : M A := fun w => Some (Raise e, w).
Definition diverge {A} : M A := fun _ => None.

Definition bind {A B} (m : M A) (k : A -> M B) : M B :=
  fun w =>
    match m w with
    | Some (Ok a, w') => k a w'
    | Some (Raise e, w') => Some (Raise e, w')
    | None => None
    end.

(** [try: m except Exception as err: h err] *)
Definition try_catch {A} (m : M A) (h : exn -> M A) : M A :=
  fun w =>
    match m w with
    | Some (Raise e, w') => h e w'
    | r => r
    end.

Definition log (l : level) (fmt : string) (args : list log_arg) : M unit :=
  fun w =>
    Some (Ok tt,
          {| pod_state := pod_state w; calls := calls w;
             logs := logs w ++ [entry l fmt args];
             CSV_STREAM_FIELD_NAMES := CSV_STREAM_FIELD_NAMES w;
             files := files w |}).

Definition emit (es : list log_entry) : M unit :=
  fun w =>
    Some (Ok tt,
          {| pod_state := pod_state w; calls := calls w;
             logs := logs w ++ es;
             CSV_STREAM_FIELD_NAMES := CSV_STREAM_FIELD_NAMES w;
             files := files w |}).

(** A call on the pod: recorded, then answered by the pod. *)
Definition call (c : Bdk.call) : M (Bdk.ret c) :=
  fun w =>
    let '(r, s) := pod c (pod_state w) in
    Some (r,
          {| pod_state := s; calls := calls w ++ [c]; logs := logs w;
             CSV_STREAM_FIELD_NAMES := CSV_STREAM_FIELD_NAMES w;
             files := files w |}).

Definition get_field_names : M (list string) :=
  fun w => Some (Ok (CSV_STREAM_FIELD_NAMES w), w).

(** [CSV_STREAM_FIELD_NAMES += l], through an alias of the list. *)
Definition extend_field_names (l : list string) : M unit :=
  fun w =>
    Some (Ok tt,
          {| pod_state := pod_state w; calls := calls w; logs := logs w;
             CSV_STREAM_FIELD_NAMES := CSV_STREAM_FIELD_NAMES w ++ l;
             files := files w |}).

(** [open(path, 'w')] *)
Definition open_w (path : string) : M unit :=
  fun w =>
    Some (Ok tt,
          {| pod_state := pod_state w; calls := calls w; logs := logs w;
             CSV_STREAM_FIELD_NAMES := CSV_STREAM_FIELD_NAMES w;
             files := <[path := []]> (files w) |}).

Definition write_line (path : string) (line : list value) : M unit :=
  fun w =>
    Some (Ok tt,
          {| pod_state := pod_state w; calls := calls w; logs := logs w;
             CSV_STREAM_FIELD_NAMES := CSV_STREAM_FIELD_NAMES w;
             files := <[path := default [] (files w !! path) ++ [line]]> (files w) |}).

(** [csv.DictWriter(f, fieldnames, extrasaction='ignore')]: [writeheader]
    and [writerow]. *)
Definition writeheader (path : string) (fieldnames : list string) : M unit :=
  write_line path (List.map VStr fieldnames).

Definition writerow (path : string) (fieldnames : list string)
    (rowdict : Dict.t value) : M unit :=
  write_line path
    (List.map (fun key => default (VStr "") (Dict.get key rowdict)) fieldnames).

Notation "'let*' x ':=' m 'in' k" := (bind m (fun x => k))
  (at level 10, x pattern, m at level 100, k at level 200).
Notation "m ';;' k" := (bind m (fun _ => k))
  (at level 100, k at level 200, right associativity).

(** [json.loads(err.body)], as far as its ['message'] member. *)
Definition json_loads_body (err : exn) : M (option string) :=
  match err with
  | ApiException _ message => ret message
  | _ => raise (AttributeError "body")
  end.

(** ['message' in reason and m == reason['message']] *)
Definition has_message (m : string) (reason : option string) : bool :=
  match reason with
  | Some m' => String.eqb m m'
  | None => false
  end.

(** ** Methods of [SymphonyRoomModifier] *)

Definition get_rooms_by_filter (filter : V2AdminStreamFilter)
    : M (list V2AdminStreamInfo) :=
  log DEBUG "Retreiving list of streams" [];;
  let* rooms := call (Bdk.list_all_streams_admin filter) in
  log INFO "Retrieved list of streams" [];;
  ret rooms.

Definition get_room_info (stream_id : string) : M V3RoomDetail :=
  let stream_id := _make_b64_id_safe stream_id in
  log DEBUG "[{}] Getting room settings." [AStr stream_id];;
  let* details := call (Bdk.get_room_info stream_id) in
  log INFO "[{}] Retreived room info." [AStr stream_id];;
  log DEBUG "[{}] Room Info: {}" [AStr stream_id; ADetail details];;
  ret details.

(** [_update_room_exception_handler]: the [finally] clause logs the
    ['message'] member of the body when there is one, and raises
    [exception] again. *)
Definition _update_room_exception_handler {A}
    (stream_id : string) (exception : exn) : M A :=
  match exception with
  | ApiException _ reason => ret tt
  | _ => log EXCEPTION "[{}] Unable to update room." [AStr stream_id]
  end;;
  log ERROR "[{}] Unable to update room. Reason: {}"
    [AStr stream_id;
     AOpt match exception with ApiException _ reason => reason | _ => None end];;
  raise exception.

Definition _add_self_to_room (stream_id : string) : M unit :=
  try_catch
    (call (Bdk.add_member_to_room (user_id bot_info) stream_id);;
     log DEBUG "[{}] Bot added to room." [AStr stream_id])
    (fun err =>
       let* reason := json_loads_body err in
       if has_message NOT_ABLE_TO_JOIN_MULTILATERAL_ROOMS reason then
         log ERROR
           "[{}] Unable to join multilateral room. Please enable multilateral room entitlement for {}."
           [AStr stream_id; AInt (user_id bot_info)]
       else raise err).

Definition _promote_self_to_owner (stream_id : string) : M unit :=
  call (Bdk.promote_user_to_room_owner (user_id bot_info) stream_id);;
  log DEBUG "[{}] Bot promoted to owner." [AStr stream_id].

Definition _remove_self_from_room (stream_id : string) : M unit :=
  call (Bdk.remove_member_from_room (user_id bot_info) stream_id);;
  log DEBUG "[{}] Bot removed from room." [AStr stream_id].

Definition _demote_self_for_room (stream_id : string) : M unit :=
  try_catch
    (call (Bdk.demote_owner_to_room_participant (user_id bot_info) stream_id);;
     log DEBUG "[{}] Bot demoted from owner." [AStr stream_id])
    (fun err =>
       let* reason := json_loads_body err in
       if has_message NOT_ABLE_TO_DEMOTE_ONLY_OWNER reason then
         log ERROR "[{}] Unable to demote bot as it is the only owner."
           [AStr stream_id; AInt (user_id bot_info)]
       else raise err).

(** The two helpers that call [update_room] back take it as [self_update_room]. *)
Definition _promote_self_and_update_room
    (self_update_room : string -> attrs -> bool -> M V3RoomDetail)
    (stream_id : string) (settings : attrs) : M V3RoomDetail :=
  _promote_self_to_owner stream_id;;
  self_update_room stream_id settings false.

Definition _add_self_and_update_room
    (self_update_room : string -> attrs -> bool -> M V3RoomDetail)
    (stream_id : string) (settings : attrs) : M V3RoomDetail :=
  log DEBUG "[{}] Bot is not a member." [AStr stream_id];;
  _add_self_to_room stream_id;;
  _promote_self_to_owner stream_id;;
  self_update_room stream_id settings false.

(** The [try] block of [update_room]. *)
Definition update_room_try (stream_id : string) (settings : attrs)
    (pre_check : bool) : M V3RoomDetail :=
  let* skipped :=
    (if pre_check then
       let* current_room_info := get_room_info stream_id in
       if negb (_check_room_modified (room_attributes current_room_info) settings)
       then
         log INFO "[{}] Current room settings match... Skipping..." [AStr stream_id];;
         ret (Some current_room_info)
       else ret None
     else ret None) in
  match skipped with
  | Some current_room_info => ret current_room_info
  | None =>
      log DEBUG "[{}] Calling update_room" [AStr stream_id];;
      let* updated_stream := call (Bdk.update_room stream_id settings) in
      log INFO "[{}] Updated Stream - New Settings: {}"
        [AStr stream_id; AAttrs (room_attributes updated_stream)];;
      ret updated_stream
  end.

(** [update_room]; [fuel] bounds the depth of its recursion through
    [_promote_self_and_update_room] and [_add_self_and_update_room]. *)
Fixpoint update_room (fuel : nat) (stream_id : string) (settings : attrs)
    (pre_check : bool) : M V3RoomDetail :=
  match fuel with
  | O => diverge
  | Datatypes.S fuel =>
      let stream_id := _make_b64_id_safe stream_id in
      try_catch (update_room_try stream_id settings pre_check)
        (fun err =>
           let* reason := json_loads_body err in
           if has_message NOT_ROOM_OWNER_MESSAGE reason then
             try_catch
               (log DEBUG "[{}] Bot is not owner. Attempting to make bot an owner."
                  [AStr stream_id];;
                let* updated_stream :=
                  _promote_self_and_update_room (update_room fuel) stream_id settings in
                _demote_self_for_room stream_id;;
                ret updated_stream)
               (fun inner_err =>
                  try_catch
                    (let* reason := json_loads_body inner_err in
                     if has_message (NOT_ROOM_MEMBER_MESSAGE (user_id bot_info)) reason
                     then
                       try_catch
                         (let* updated_stream :=
                            _add_self_and_update_room (update_room fuel) stream_id settings in
                          _remove_self_from_room stream_id;;
                          ret updated_stream)
                         (fun _ => _update_room_exception_handler stream_id inner_err)
                     else _update_room_exception_handler stream_id err)
                    (fun _ => _update_room_exception_handler stream_id err))
           else _update_room_exception_handler stream_id err)
  end.

(** The loop of [update_rooms], with its [results] list. *)
Fixpoint update_rooms_loop (fuel : nat) (streams : list V2AdminStreamInfo)
    (settings : attrs) (pre_check : bool) (results : list V3RoomDetail)
    : M (list V3RoomDetail) :=
  match streams with
  | [] => ret results
  | stream :: streams =>
      let stream_id := _make_b64_id_safe (id stream) in
      let* results :=
        try_catch
          (log INFO "[{}] Updating Stream - {}"
             [AStr stream_id; AStr (room_name stream)];;
           let* updated_room := update_room fuel stream_id settings pre_check in
           ret (results ++ [updated_room]))
          (fun _ =>
             log ERROR "[{}] There was an error updating room." [AStr stream_id];;
             ret results) in
      update_rooms_loop fuel streams settings pre_check results
  end.

Definition update_rooms (fuel : nat) (streams : list V2AdminStreamInfo)
    (settings : attrs) (pre_check : bool) : M (list V3RoomDetail) :=
  update_rooms_loop fuel streams settings pre_check [].

Definition update_rooms_by_filter_override (fuel : nat)
    (filter : V2AdminStreamFilter) (settings : attrs) (pre_check : bool)
    : M (list V3RoomDetail) :=
  let* streams := get_rooms_by_filter filter in
  update_rooms fuel streams settings pre_check.



(** ** CSV export and import *)

Definition os_devnull : string := "/dev/null".

(** The loop of [export_rooms_to_csv]. *)
Fixpoint export_rooms_loop (output_file : string) (field_names : list string)
    (export_non_modifiable : bool) (streams : list V2AdminStreamInfo) : M unit :=
  match streams with
  | [] => ret tt
  | stream :: streams =>
      log DEBUG "[{}] Writing Room to CSV." [AStr (id stream)];;
      let* room := get_room_info (id stream) in
      writerow output_file field_names
        (_room_details_to_csv_dict room export_non_modifiable);;
      export_rooms_loop output_file field_names export_non_modifiable streams
  end.

(** [export_rooms_to_csv]: [field_names] is an alias of the module-level
    list, which [+=] extends in place. *)
Definition export_rooms_to_csv (stream_filter : V2AdminStreamFilter)
    (output_file : string) (export_non_modifiable : bool) : M unit :=
  log INFO "Exporting all rooms to CSV {} with filter: {}"
    [AStr output_file; AFilter stream_filter];;
  try_catch
    (let* streams := get_rooms_by_filter stream_filter in
     open_w output_file;;
     (if export_non_modifiable
      then extend_field_names CSV_STREAM_NON_MODIFIABLE_FIELD_NAMES
      else ret tt);;
     let* field_names := get_field_names in
     writeheader output_file field_names;;
     export_rooms_loop output_file field_names export_non_modifiable streams)
    (fun err =>
       log EXCEPTION "There was an error exporting to CSV." [];;
       raise err);;
  log INFO "Finished exporting all streams to {}" [AStr output_file].

(** The [except] clause of the loop of [update_rooms_from_csv]. *)
Definition csv_row_failure (output_file : string) (fields : list string)
    (row : Z) (room : Dict.t value) (err : exn) : M unit :=
  let reason :=
    match err with
    | ApiException _ (Some message) => message
    | _ => exn_str err
    end in
  match Dict.get "streamId" room with
  | Some stream_id =>
      log ERROR "[{}] There was an error updating room on row {}: {}"
        [AVal stream_id; AInt row; AStr reason];;
      writerow output_file fields
        (Dict.set "reason" (VStr reason)
           (Dict.set "status" (VStr "FAILURE") room))
  | None =>
      log EXCEPTION "Unknown exception occurred while updating room on row {}"
        [AInt row]
  end.

(** The body of the loop of [update_rooms_from_csv] for one row. *)
Definition update_rooms_from_csv_row (fuel : nat) (output_file : string)
    (fields : list string) (incoming_room_settings : option attrs)
    (export_non_modifiable pre_check : bool) (row : Z) (room : Dict.t value)
    : M unit :=
  log INFO "Processing row {}" [AInt row];;
  match Dict.get "streamId" room with
  | None => log ERROR "Row {} has no stream id specified... Skipping..." [AInt row]
  | Some (VStr raw) =>
      let room := Dict.set "streamId" (VStr (_make_b64_id_safe raw)) room in
      let stream_id := _make_b64_id_safe (_make_b64_id_safe raw) in
      try_catch
        (let* room_settings :=
           match incoming_room_settings with
           | None =>
               log DEBUG "[{}] Parsing room attributes from CSV" [AStr stream_id];;
               let '(entries, r) := _csv_room_settings_to_v3_room_attributes room in
               emit entries;;
               match r with Ok a => ret a | Raise e => raise e end
           | Some settings =>
               log DEBUG
                 "[{}] Room attributes specified. Setting room attributes to specified attributes instead of CSV."
                 [AStr stream_id];;
               ret settings
           end in
         let* current_room_info :=
           (if pre_check
            then let* info := get_room_info stream_id in ret (Some info)
            else ret None) in
         let should_update :=
           match current_room_info with
           | Some info => _check_room_modified (room_attributes info) room_settings
           | None => true
           end in
         match should_update, current_room_info with
         | false, Some info =>
             log INFO "[{}] Current room settings match csv row... Skipping..."
               [AStr stream_id];;
             writerow output_file fields
               (Dict.set "reason" (VStr "Current room settings matched")
                  (Dict.set "status" (VStr "SKIPPED")
                     (_room_details_to_csv_dict info export_non_modifiable)))
         | _, _ =>
             log INFO "[{}] Updating room from CSV with room attributes: {}"
               [AStr stream_id; AAttrs room_settings];;
             let* updated_room := update_room fuel stream_id room_settings true in
             writerow output_file fields
               (Dict.set "status" (VStr "SUCCESS")
                  (_room_details_to_csv_dict updated_room export_non_modifiable))
         end)
        (csv_row_failure output_file fields row room)
  | Some _ =>
      csv_row_failure output_file fields row room (AttributeError "replace")
  end.

Fixpoint update_rooms_from_csv_loop (fuel : nat) (output_file : string)
    (fields : list string) (incoming_room_settings : option attrs)
    (export_non_modifiable pre_check : bool) (row : Z)
    (rooms_csv : list (Dict.t value)) : M unit :=
  match rooms_csv with
  | [] => ret tt
  | room :: rooms_csv =>
      update_rooms_from_csv_row fuel output_file fields incoming_room_settings
        export_non_modifiable pre_check (row + 1) room;;
      update_rooms_from_csv_loop fuel output_file fields incoming_room_settings
        export_non_modifiable pre_check (row + 1) rooms_csv
  end.

(** [update_rooms_from_csv]; [rooms_csv] are the rows that
    [csv.DictReader] yields for [input_file].  [fields] is an alias of the
    module-level list, which the two [+=] extend in place. *)
Definition update_rooms_from_csv (fuel : nat) (input_file : string)
    (rooms_csv : list (Dict.t value)) (output_file : option string)
    (incoming_room_settings : option attrs)
    (export_non_modifiable pre_check : bool) : M unit :=
  log INFO "Updating rooms from CSV file: {}" [AStr input_file];;
  let* output_file :=
    match output_file with
    | Some f =>
        if String.eqb f "" then ret os_devnull
        else log INFO "Exporting results to file: {}" [AStr f];; ret f
    | None => ret os_devnull
    end in
  open_w output_file;;
  (if export_non_modifiable
   then extend_field_names CSV_STREAM_NON_MODIFIABLE_FIELD_NAMES
   else ret tt);;
  extend_field_names CSV_RESULTS_STREAM_FIELD_NAMES;;
  let* fields := get_field_names in
  writeheader output_file fields;;
  update_rooms_from_csv_loop fuel output_file fields incoming_room_settings
    export_non_modifiable pre_check 0 rooms_csv.

End Modifier.

Arguments World : clear implicits.
Arguments M : clear implicits.

(** ** Assumptions on the pod *)

Section PodLaws.

Context {S : Type}.
Variable pod : forall c : Bdk.call, S -> result (Bdk.ret c) * S.
Variable bot_info : UserV2.

(** Whether the bot is a member, and an owner, of a room. *)
Variable member owner : S -> string -> bool.

Let uid := user_id bot_info.

(** What the recovery of [update_room] relies on: a failed call leaves the
    bot's relation to the room as it was, reads and updates of settings do
    not touch it, the four membership calls do what their names say, and the
    two reasons that drive the recovery are only given when they are true. *)
Record lawful : Prop := {
  law_failure : forall c i s e,
    Bdk.room c = Some i -> fst (pod c s) = Raise e ->
    member (snd (pod c s)) i = member s i /\ owner (snd (pod c s)) i = owner s i;
  law_get : forall i s,
    member (snd (pod (Bdk.get_room_info i) s)) i = member s i
    /\ owner (snd (pod (Bdk.get_room_info i) s)) i = owner s i;
  law_update : forall i a s,
    member (snd (pod (Bdk.update_room i a) s)) i = member s i
    /\ owner (snd (pod (Bdk.update_room i a) s)) i = owner s i;
  law_add : forall i s,
    fst (pod (Bdk.add_member_to_room uid i) s) = Ok tt ->
    member (snd (pod (Bdk.add_member_to_room uid i) s)) i = true
    /\ owner (snd (pod (Bdk.add_member_to_room uid i) s)) i = owner s i;
  law_remove : forall i s,
    fst (pod (Bdk.remove_member_from_room uid i) s) = Ok tt ->
    member (snd (pod (Bdk.remove_member_from_room uid i) s)) i = false
    /\ owner (snd (pod (Bdk.remove_member_from_room uid i) s)) i = false;
  law_promote : forall i s,
    fst (pod (Bdk.promote_user_to_room_owner uid i) s) = Ok tt ->
    member (snd (pod (Bdk.promote_user_to_room_owner uid i) s)) i = member s i
    /\ owner (snd (pod (Bdk.promote_user_to_room_owner uid i) s)) i = true;
  law_demote : forall i s,
    fst (pod (Bdk.demote_owner_to_room_participant uid i) s) = Ok tt ->
    member (snd (pod (Bdk.demote_owner_to_room_participant uid i) s)) i = member s i
    /\ owner (snd (pod (Bdk.demote_owner_to_room_participant uid i) s)) i = false;
  law_not_owner : forall c i s text,
    Bdk.room c = Some i ->
    fst (pod c s) = Raise (ApiException text (Some NOT_ROOM_OWNER_MESSAGE)) ->
    owner s i = false;
  law_not_member : forall c i s text,
    Bdk.room c = Some i ->
    fst (pod c s) = Raise (ApiException text (Some (NOT_ROOM_MEMBER_MESSAGE uid))) ->
    member s i = false;
}.

(** The room [i] is settled for [settings] when the pod reports a state in
    which no requested attribute differs. *)
Definition settled (i : string) (settings : attrs) (s : S) : Prop :=
  exists room,
    fst (pod (Bdk.get_room_info i) s) = Ok room
    /\ _check_room_modified (room_attributes room) settings = false.

(** A pod that applies the settings it accepts, and on which reads and
    membership calls leave the settings alone. *)
Record applies_settings : Prop := {
  law_applied : forall i a s room,
    fst (pod (Bdk.update_room i a) s) = Ok room ->
    settled i a (snd (pod (Bdk.update_room i a) s));
  law_kept : forall c i a s,
    match c with Bdk.update_room _ _ => False | _ => True end ->
    settled i a s -> settled i a (snd (pod c s));
}.

End PodLaws.

(** ** A small pod *)

Module SmallPod.

(** A room as the pod holds it: its detail, the bot's relation to it, the
    number of its other owners, and whether updates of it are out of
    order. *)
Record room := {
  detail : V3RoomDetail;
  bot_member : bool;
  bot_owner : bool;
  other_owners : nat;
  out_of_order : bool;
}.

Abbreviation state := (gmap string room).

Definition member (s : state) (i : string) : bool :=
  match s !! i with Some r => bot_member r | None => false end.

Definition owner (s : state) (i : string) : bool :=
  match s !! i with Some r => bot_owner r | None => false end.

Definition not_found {A} : result A :=
  Raise (ApiException "(404) Not Found" (Some "Room not found.")).

(** The requested attributes that are not [None] replace the current ones. *)
Definition apply_settings (settings current : attrs) : attrs :=
  filter (fun kv => is_none (snd kv) = false) settings ∪ current.

Definition with_relation (r : room) (m o : bool) : room :=
  {| detail := detail r; bot_member := m; bot_owner := o;
     other_owners := other_owners r; out_of_order := out_of_order r |}.

(** The response of the pod to the bot [bot]. *)
Definition step (bot : Z) (c : Bdk.call) (s : state)
    : result (Bdk.ret c) * state :=
  match c return result (Bdk.ret c) * state with
  | Bdk.list_all_streams_admin _ =>
      (Ok (List.map (fun kv => {| id := fst kv; room_name := fst kv |})
             (map_to_list s)), s)
  | Bdk.get_room_info i =>
      match s !! i with
      | Some r => (Ok (detail r), s)
      | None => (not_found, s)
      end
  | Bdk.update_room i settings =>
      match s !! i with
      | Some r =>
          if out_of_order r then
            (Raise (ApiException "(500) Internal Server Error"
                      (Some "Internal server error.")), s)
          else if bot_owner r then
            let d := {| room_attributes :=
                          apply_settings settings (room_attributes (detail r));
                        room_system_info := room_system_info (detail r) |} in
            (Ok d,
             <[i := {| detail := d; bot_member := bot_member r;
                       bot_owner := bot_owner r;
                       other_owners := other_owners r;
                       out_of_order := out_of_order r |}]> s)
          else (Raise (ApiException "(403) Forbidden"
                         (Some NOT_ROOM_OWNER_MESSAGE)), s)
      | None => (not_found, s)
      end
  | Bdk.add_member_to_room u i =>
      match s !! i with
      | Some r =>
          if Z.eqb u bot
          then (Ok tt, <[i := with_relation r true (bot_owner r)]> s)
          else (Raise (ApiException "(400) Bad Request" (Some "Unknown user.")), s)
      | None => (not_found, s)
      end
  | Bdk.remove_member_from_room u i =>
      match s !! i with
      | Some r =>
          if Z.eqb u bot
          then (Ok tt, <[i := with_relation r false false]> s)
          else (Raise (ApiException "(400) Bad Request" (Some "Unknown user.")), s)
      | None => (not_found, s)
      end
  | Bdk.promote_user_to_room_owner u i =>
      match s !! i with
      | Some r =>
          if negb (Z.eqb u bot)
          then (Raise (ApiException "(400) Bad Request" (Some "Unknown user.")), s)
          else if bot_member r
          then (Ok tt, <[i := with_relation r true true]> s)
          else (Raise (ApiException "(403) Forbidden"
                         (Some (NOT_ROOM_MEMBER_MESSAGE u))), s)
      | None => (not_found, s)
      end
  | Bdk.demote_owner_to_room_participant u i =>
      match s !! i with
      | Some r =>
          if negb (Z.eqb u bot)
          then (Raise (ApiException "(400) Bad Request" (Some "Unknown user.")), s)
          else if bot_owner r && Nat.eqb (other_owners r) 0
          then (Raise (ApiException "(403) Forbidden"
                         (Some NOT_ABLE_TO_DEMOTE_ONLY_OWNER)), s)
          else (Ok tt, <[i := with_relation r (bot_member r) false]> s)
      | None => (not_found, s)
      end
  end.

Definition bot : UserV2 := {| user_id := 7; username := "room-bot" |}.

Definition start (s : state) : World state :=
  {| pod_state := s; calls := []; logs := [];
     CSV_STREAM_FIELD_NAMES := CSV_STREAM_FIELD_NAMES_init; files := ∅ |}.

(** A room with [membersCanInvite] set. *)
Definition a_room (name : string) (m o : bool) (others : nat) (broken : bool)
    : room :=
  {| detail :=
       {| room_attributes :=
            <["members_can_invite" := VBool true]> (<["name" := VStr name]> ∅);
          room_system_info := <["id" := VStr name]> ∅ |};
     bot_member := m; bot_owner := o; other_owners := others;
     out_of_order := broken |}.

End SmallPod.

(** ** Definitions used in the statements *)

(** The difference that the description of [_check_room_modified] speaks of:
    some compared attribute is set and not [None] in [new_settings] and
    differs from the one of [old_settings], an attribute that
    [old_settings] lacks counting as different. *)
Definition differs_or_absent (old_settings new_settings : attrs) : bool :=
  existsb
    (fun attribute =>
       match new_settings !! attribute with
       | Some n =>
           negb (is_none n)
           && match old_settings !! attribute with
              | Some o => negb (py_eq n o)
              | None => true
              end
       | None => false
       end)
    (Dict.keys ROOM_TO_CSV_ROOM_MAP).







(** Total correctness of a computation: from a world in [P] the run ends,
    in [Q]. *)
Definition hoare {S A} (P : World S -> Prop) (m : M S A)
    (Q : result A -> World S -> Prop) : Prop :=
  forall w, P w -> exists r w', m w = Some (r, w') /\ Q r w'.

(** The world after one more log record. *)
Definition logged {S} (e : log_entry) (w : World S) : World S :=
  {| pod_state := pod_state w; calls := calls w; logs := logs w ++ [e];
     CSV_STREAM_FIELD_NAMES := CSV_STREAM_FIELD_NAMES w; files := files w |}.

(** What the pre-check of [update_room] does before the first write: with
    [pre_check] it reads a state that differs from [settings], and the pod
    goes to [s0]; without, the pod is in [s0] already. *)
Definition fetched {S} (pod : forall c : Bdk.call, S -> result (Bdk.ret c) * S)
    (i : string) (settings : attrs) (pre_check : bool) (w : World S) (s0 : S)
    : Prop :=
  if pre_check then
    exists current,
      pod (Bdk.get_room_info i) (pod_state w) = (Ok current, s0)
      /\ _check_room_modified (room_attributes current) settings = true
  else pod_state w = s0.

(** The calls of the pre-check. *)
Definition pre_calls (i : string) (pre_check : bool) : list Bdk.call :=
  if pre_check then [Bdk.get_room_info i] else [].

(** An identifier that normalisation leaves alone. *)
Definition stable (stream_id : string) : Prop :=
  _make_b64_id_safe stream_id = stream_id.

(** The entry logged when the bot cannot be demoted. *)
Definition ONLY_OWNER_ENTRY (bot_info : UserV2) (stream_id : string) : log_entry :=
  entry ERROR "[{}] Unable to demote bot as it is the only owner."
    [AStr stream_id; AInt (user_id bot_info)].

(** ** Definitions used in the proofs *)

(** The translation of the two characters, in one pass. *)
Definition url_safe_char (c : ascii) : ascii :=
  if Ascii.eqb (if Ascii.eqb c "+" then "-"%char else c) "/" then "_"%char
  else if Ascii.eqb c "+" then "-"%char else c.



(** An assertion that only looks at the pod. *)
Definition pod_only {S} (P : World S -> Prop) : Prop :=
  forall w w', pod_state w = pod_state w' -> P w -> P w'.

(** The relation of the bot to the room [i]: member [m], owner [o]. *)
Definition bot_rel {S} (member owner : S -> string -> bool) (i : string)
    (m o : bool) (w : World S) : Prop :=
  member (pod_state w) i = m /\ owner (pod_state w) i = o.

(** The same, in a pod state of which [G] holds. *)
Definition bot_rel_settled {S} (member owner : S -> string -> bool) (i : string)
    (G : S -> Prop) (m o : bool) (w : World S) : Prop :=
  bot_rel member owner i m o w /\ G (pod_state w).

(** The two reasons, when [e] gives one of them, are true of a bot whose
    relation to the room is [m], [o]. *)
Definition reason_sound (uid : Z) (e : exn) (m o : bool) : Prop :=
  forall text,
    (e = ApiException text (Some NOT_ROOM_OWNER_MESSAGE) -> o = false)
    /\ (e = ApiException text (Some (NOT_ROOM_MEMBER_MESSAGE uid)) -> m = false).

(** What is known when the promotion path has raised [e]. *)
Definition promotion_failed {S} (member owner : S -> string -> bool) (i : string)
    (uid : Z) (m : bool) (e : exn) (w : World S) : Prop :=
  (exists o', bot_rel member owner i m o' w)
  /\ forall t, e = ApiException t (Some (NOT_ROOM_MEMBER_MESSAGE uid)) -> m = false.

(** The outcome of the loop of [update_rooms], with [f] applied to the list
    it returns. *)
Definition map_rooms {S} (f : list V3RoomDetail -> list V3RoomDetail)
    (r : option (result (list V3RoomDetail) * World S))
    : option (result (list V3RoomDetail) * World S) :=
  match r with
  | Some (Ok rooms, w) => Some (Ok (f rooms), w)
  | r => r
  end.

(** One room of [update_rooms]: its update, from the world in which the room
    has been announced in the log. *)
Definition one_room {S} (pod : forall c : Bdk.call, S -> result (Bdk.ret c) * S)
    (bot_info : UserV2) (fuel : nat) (settings : attrs) (pre_check : bool)
    (stream : V2AdminStreamInfo) (w : World S) :=
  update_room pod bot_info fuel (_make_b64_id_safe (id stream)) settings pre_check
    (logged (entry INFO "[{}] Updating Stream - {}"
               [AStr (_make_b64_id_safe (id stream)); AStr (room_name stream)]) w).

(** [I] holds after every run of [m] that starts in [I] and ends. *)
Definition keeps {S A} (I : World S -> Prop) (m : M S A) : Prop :=
  forall w r w', I w -> m w = Some (r, w') -> I w'.

(** An assertion on the module-level list and the files only. *)
Definition files_only {S} (I : World S -> Prop) : Prop :=
  forall w w',
    CSV_STREAM_FIELD_NAMES w' = CSV_STREAM_FIELD_NAMES w -> files w' = files w ->
    I w -> I w'.

(** The path that [update_rooms_from_csv] writes to. *)
Definition out_path (output_file : option string) : string :=
  match output_file with
  | Some f => if String.eqb f "" then os_devnull else f
  | None => os_devnull
  end.

(** The module-level list is [F], and the file [out] starts with it. *)
Definition headed {S} (out : string) (F : list string) (w : World S) : Prop :=
  CSV_STREAM_FIELD_NAMES w = F
  /\ exists lines, files w !! out = Some (List.map VStr F :: lines).

(** What a flag adds to the module-level list. *)
Definition extra_columns (export_non_modifiable : bool) : list string :=
  if export_non_modifiable then CSV_STREAM_NON_MODIFIABLE_FIELD_NAMES else [].



(** ** Examples on the small pod *)

Module Examples.
Import SmallPod.

(** [membersCanInvite] is to be switched off. *)
Definition want : attrs := <["members_can_invite" := VBool false]> ∅.

(** A pod with the room R, which the bot is not in. *)
Definition outsider : state := <["R" := a_room "R" false false 1 false]> ∅.

(** A pod with the rooms A, B and C, all owned by the bot, B out of order. *)
Definition three : state :=
  <["A" := a_room "A" true true 1 false]>
    (<["B" := a_room "B" true true 1 true]>
       (<["C" := a_room "C" true true 1 false]> ∅)).

(** The room R with [membersCanInvite] off. *)
Definition updated_R : V3RoomDetail :=
  {| room_attributes :=
       <["members_can_invite" := VBool false]> (<["name" := VStr "R"]> ∅);
     room_system_info := <["id" := VStr "R"]> ∅ |}.

(** The first pod once R has been updated. *)
Definition outsider_after : state :=
  <["R" := {| detail := updated_R; bot_member := false; bot_owner := false;
              other_owners := 1; out_of_order := false |}]> ∅.

Definition stream (name : string) : V2AdminStreamInfo :=
  {| id := name; room_name := name |}.



End Examples.

(** The world in which a run ends. *)
Definition run_to {S A} (m : M S A) (w : World S) : World S :=
  match m w with
  | Some (_, w') => w'
  | None => w
  end.



(** ** Definitions used in the further properties *)

(** A column of [CSV_ROOM_TO_ROOM_ATTRIBUTES_MAP]. *)
Definition known_column (kv : string * value) : bool :=
  Dict.mem (fst kv) CSV_ROOM_TO_ROOM_ATTRIBUTES_MAP.


(** The pinned message of [room_attributes], when set, is the text of a
    [pinnedMessageId] cell of [room_row]. *)
Definition pinned_as_typed (room_row : Dict.t value) (room_attributes : attrs) : Prop :=
  forall v,
    room_attributes !! "pinned_message_id" = Some v ->
    exists raw text,
      In ("pinnedMessageId", VStr raw) room_row
      /\ cell_text raw = Some text /\ v = VStr text.



(** A call about the room [i], on the bot [uid] when it is a membership call. *)
Definition about (i : string) (uid : Z) (c : Bdk.call) : bool :=
  match c with
  | Bdk.list_all_streams_admin _ => false
  | Bdk.get_room_info j | Bdk.update_room j _ => String.eqb i j
  | Bdk.add_member_to_room u j | Bdk.remove_member_from_room u j
  | Bdk.promote_user_to_room_owner u j | Bdk.demote_owner_to_room_participant u j =>
      String.eqb i j && Z.eqb uid u
  end.

(** The calls made since [before] all satisfy [p]. *)
Definition calls_since {S} (before : list Bdk.call) (p : Bdk.call -> bool)
    (w : World S) : Prop :=
  exists made, calls w = before ++ made /\ forallb p made = true.

(** An assertion on the calls only. *)
Definition calls_only {S} (I : World S -> Prop) : Prop :=
  forall w w', calls w' = calls w -> I w -> I w'.


(** The reason written in a FAILURE row. *)
Definition failure_reason (err : exn) : string :=
  match err with
  | ApiException _ (Some message) => message
  | _ => exn_str err
  end.

(** The row written for a row of the input that could not be processed. *)
Definition failure_row (room : Dict.t value) (err : exn) : Dict.t value :=
  Dict.set "reason" (VStr (failure_reason err))
    (Dict.set "status" (VStr "FAILURE") room).

(** The row written for a room that [update_room] has returned. *)
Definition success_row (room : V3RoomDetail) (flag : bool) : Dict.t value :=
  Dict.set "status" (VStr "SUCCESS") (_room_details_to_csv_dict room flag).

(** The line that [writerow] writes for [rowdict]. *)
Definition csv_line (fieldnames : list string) (rowdict : Dict.t value) : list value :=
  List.map (fun key => default (VStr "") (Dict.get key rowdict)) fieldnames.

(** The files after one more line in the file [path]. *)
Definition appended {S} (path : string) (line : list value) (w : World S)
    : gmap string (list (list value)) :=
  <[path := default [] (files w !! path) ++ [line]]> (files w).

(** The row of the input once its identifier has been normalised, and the
    identifier under which the room of the row is read and updated. *)
Definition normalised_row (raw : string) (room : Dict.t value) : Dict.t value :=
  Dict.set "streamId" (VStr (_make_b64_id_safe raw)) room.

Definition row_id (raw : string) : string :=
  _make_b64_id_safe (_make_b64_id_safe raw).

(** The settings of a row: those given for all rows, or those of its cells. *)
Definition row_settings (incoming_room_settings : option attrs)
    (room : Dict.t value) : result attrs :=
  match incoming_room_settings with
  | Some settings => Ok settings
  | None => snd (_csv_room_settings_to_v3_room_attributes room)
  end.

(** The number of lines of the file [path]. *)
Definition lines_of {S} (path : string) (w : World S) : nat :=
  length (default [] (files w !! path)).

(** The rows of the input that have a [streamId] column. *)
Definition with_stream_id (rooms_csv : list (Dict.t value)) : list (Dict.t value) :=
  List.filter (Dict.mem "streamId") rooms_csv.

(** Every run of [m] that ends returns, with [n] more lines in [path]. *)
Definition writes {S A} (path : string) (n : nat) (m : M S A) : Prop :=
  forall w r w', m w = Some (r, w') ->
    (exists a, r = Ok a) /\ lines_of path w' = lines_of path w + n.

(** Every run of [m] that ends has added [n] lines to [path] when it
    returns, and none when it raises. *)
Definition writes_last {S A} (path : string) (n : nat) (m : M S A) : Prop :=
  forall w r w', m w = Some (r, w') ->
    lines_of path w' = lines_of path w + match r with Ok _ => n | Raise _ => 0 end.

(** The filter that [update_rooms_by_filter] lists the rooms with. *)
Definition forced (filter : V2AdminStreamFilter) : V2AdminStreamFilter :=
  {| stream_types := [STREAM_FILTER_TYPE_ROOM]; status := Some "ACTIVE";
     origin := Some "INTERNAL"; scope := scope filter; privacy := privacy filter |}.

(** The reads of an export: the listing, then every room listed. *)
Definition export_calls (stream_filter : V2AdminStreamFilter)
    (streams : list V2AdminStreamInfo) : list Bdk.call :=
  Bdk.list_all_streams_admin stream_filter
  :: List.map (fun stream => Bdk.get_room_info (_make_b64_id_safe (id stream))) streams.


(** ** The filter of the command line ([modify_rooms.py]) *)

Definition ALL_AVAILABLE_FILTER_ROOM_FLAGS : list string :=
  ["internal"; "external"; "public"; "private";
   "internalOrigin"; "externalOrigin"; "active"; "inactive"].

(** The truth value of a Python value. *)
Definition truthy (v : value) : bool :=
  match v with
  | VNone => false
  | VBool b => b
  | VStr s => negb (String.eqb s "")
  | VInt z => negb (Z.eqb z 0)
  end.

(** [initialize_filter_flags]: every flag is [None]. *)
Definition initialize_filter_flags : Dict.t value :=
  List.fold_left (fun filter_flags flag => Dict.set flag VNone filter_flags)
    ALL_AVAILABLE_FILTER_ROOM_FLAGS [].

(** [parse_filter_settings]: [filter_flags[flag] = True]. *)
Definition parse_filter_settings (filter_flags : Dict.t value) (flag arg : string)
    : Dict.t value :=
  Dict.set flag (VBool true) filter_flags.

(** [filter_flags[key]] *)
Definition subscript (filter_flags : Dict.t value) (key : string) : result value :=
  match Dict.get key filter_flags with
  | Some v => Ok v
  | None => Raise (KeyError key)
  end.

(** [settings.attribute is not None]; an attribute that the object does not
    hold raises. *)
Definition is_set (settings : attrs) (attribute : string) : result bool :=
  match settings !! attribute with
  | Some v => Ok (negb (is_none v))
  | None => Raise (AttributeError attribute)
  end.

Definition and_then {A B} (r : result A) (k : A -> result B) : result B :=
  match r with
  | Ok a => k a
  | Raise e => Raise e
  end.

(** [if flags[a] != flags[b]: if flags[a]: x = on_a  elif flags[b]: x = on_b],
    the pattern of the scope, the privacy and the status. *)
Definition one_of (filter_flags : Dict.t value) (a b on_a on_b : string)
    : result (option string) :=
  and_then (subscript filter_flags a) (fun va =>
  and_then (subscript filter_flags b) (fun vb =>
  if negb (py_eq va vb) then
    if truthy va then Ok (Some on_a)
    else if truthy vb then Ok (Some on_b) else Ok None
  else Ok None)).

(** The origin: [if flags['internalOrigin'] != flags['external']:
    if flags['internal']: 'INTERNAL'], and [elif flags['externalOrigin']:
    'EXTERNAL']. *)
Definition origin_of (filter_flags : Dict.t value) : result (option string) :=
  and_then (subscript filter_flags "internalOrigin") (fun internalOrigin =>
  and_then (subscript filter_flags "external") (fun external =>
  if negb (py_eq internalOrigin external) then
    and_then (subscript filter_flags "internal") (fun internal =>
    Ok (if truthy internal then Some "INTERNAL" else None))
  else
    and_then (subscript filter_flags "externalOrigin") (fun externalOrigin =>
    Ok (if truthy externalOrigin then Some "EXTERNAL" else None)))).

(** The part of [create_stream_filter] that reads the flags. *)
Definition filter_of_flags (filter_flags : Dict.t value) : result V2AdminStreamFilter :=
  and_then (one_of filter_flags "internal" "external" "INTERNAL" "EXTERNAL") (fun scope =>
  and_then (origin_of filter_flags) (fun origin =>
  and_then (one_of filter_flags "public" "private" "PRIVATE" "PUBLIC") (fun privacy =>
  and_then (one_of filter_flags "active" "inactive" "ACTIVE" "INACTIVE") (fun status =>
  Ok {| stream_types := []; status := status; origin := origin; scope := scope;
        privacy := privacy |})))).

Definition with_scope (scope' : string) (f : V2AdminStreamFilter) : V2AdminStreamFilter :=
  {| stream_types := stream_types f; status := status f; origin := origin f;
     scope := Some scope'; privacy := privacy f |}.

Definition with_privacy (privacy' : string) (f : V2AdminStreamFilter)
    : V2AdminStreamFilter :=
  {| stream_types := stream_types f; status := status f; origin := origin f;
     scope := scope f; privacy := Some privacy' |}.

Definition COPY_PROTECTED_ENTRY : log_entry :=
  entry INFO
    "Copy Protected flag can only be used on internal rooms. Chaning scope to internal only."
    [].

Definition DISCOVERABLE_ENTRY : log_entry :=
  entry INFO
    "Discoverable flag can only be set on internal Private rooms. Changing scope to Internal, Private rooms only."
    [].

Definition VIEW_HISTORY_ENTRY : log_entry :=
  entry INFO
    "History can only be enabled for internal rooms. Changing scope to internal only."
    [].

(** The part of [create_stream_filter] under [if settings is not None]. *)
Definition filter_for_settings (settings : attrs) (f : V2AdminStreamFilter)
    : list log_entry * result V2AdminStreamFilter :=
  match is_set settings "copy_protected" with
  | Raise e => ([], Raise e)
  | Ok copy_protected =>
      let '(l1, f) :=
        if copy_protected then ([COPY_PROTECTED_ENTRY], with_scope "INTERNAL" f)
        else ([], f) in
      match is_set settings "discoverable" with
      | Raise e => (l1, Raise e)
      | Ok discoverable =>
          let '(l2, f) :=
            if discoverable
            then ([DISCOVERABLE_ENTRY],
                  with_privacy "PRIVATE" (with_scope "INTERNAL" f))
            else ([], f) in
          match is_set settings "view_history" with
          | Raise e => (l1 ++ l2, Raise e)
          | Ok view_history =>
              if view_history
              then (l1 ++ l2 ++ [VIEW_HISTORY_ENTRY], Ok (with_scope "INTERNAL" f))
              else (l1 ++ l2, Ok f)
          end
      end
  end.

(** [create_stream_filter]: the records logged and the filter. *)
Definition create_stream_filter (filter_flags : Dict.t value) (settings : option attrs)
    : list log_entry * result V2AdminStreamFilter :=
  match filter_of_flags filter_flags with
  | Raise e => ([], Raise e)
  | Ok f =>
      let '(entries, r) :=
        match settings with
        | Some settings => filter_for_settings settings f
        | None => ([], Ok f)
        end in
      (entries,
       and_then r (fun f =>
         Ok {| stream_types := [STREAM_FILTER_TYPE_ROOM]; status := status f;
               origin := origin f; scope := scope f; privacy := privacy f |}))
  end.

(** The flags of a command line: [parse_filter_settings] for every flag
    given, from [initialize_filter_flags]. *)
Definition flags_given (given : list (string * string)) : Dict.t value :=
  List.fold_left
    (fun filter_flags opt => parse_filter_settings filter_flags (fst opt) (snd opt))
    given initialize_filter_flags.

(** [flag] is among the flags given. *)
Definition given_flag (flag : string) (given : list (string * string)) : bool :=
  existsb (fun opt => String.eqb flag (fst opt)) given.

(** ** A pod that replays a script *)

Module Replay.

(** The outcomes of the calls to come: an error to raise, or none. *)
Abbreviation state := (list (option exn)).

Definition blank : V3RoomDetail :=
  {| room_attributes := ∅; room_system_info := ∅ |}.

(** What a call that does not raise returns. *)
Definition answer (c : Bdk.call) : Bdk.ret c :=
  match c return Bdk.ret c with
  | Bdk.list_all_streams_admin _ => []
  | Bdk.get_room_info _ | Bdk.update_room _ _ => blank
  | _ => tt
  end.

Definition step (c : Bdk.call) (s : state) : result (Bdk.ret c) * state :=
  match s with
  | Some e :: s => (Raise e, s)
  | None :: s => (Ok (answer c), s)
  | [] => (Ok (answer c), [])
  end.

Definition start (s : state) : World state :=
  {| pod_state := s; calls := []; logs := [];
     CSV_STREAM_FIELD_NAMES := CSV_STREAM_FIELD_NAMES_init; files := ∅ |}.

Definition not_owner : exn :=
  ApiException "(403) Forbidden" (Some NOT_ROOM_OWNER_MESSAGE).

Definition not_member (uid : Z) : exn :=
  ApiException "(403) Forbidden" (Some (NOT_ROOM_MEMBER_MESSAGE uid)).

Definition no_multilateral : exn :=
  ApiException "(403) Forbidden" (Some NOT_ABLE_TO_JOIN_MULTILATERAL_ROOMS).

Definition unavailable : exn :=
  ApiException "(503) Service Unavailable" None.

End Replay.

(** ** More examples on the small pod *)

Module Rows.

(** Rows of an input file: the room A as it is, the room A with
    [membersCanInvite] off, the room B, whose updates are out of order, a row
    without identifier, and a row whose flag does not parse. *)
Definition A_as_is : Dict.t value :=
  [("streamId", VStr "A"); ("membersCanInvite", VStr "true")].

Definition A_off : Dict.t value :=
  [("streamId", VStr "A"); ("membersCanInvite", VStr "false")].

Definition B_off : Dict.t value :=
  [("streamId", VStr "B"); ("membersCanInvite", VStr "false")].

Definition no_id : Dict.t value :=
  [("name", VStr "A"); ("membersCanInvite", VStr "false")].

Definition A_maybe : Dict.t value :=
  [("streamId", VStr "A"); ("membersCanInvite", VStr "maybe")].

Definition fields : list string :=
  ["streamId"; "membersCanInvite"; "status"; "reason"].

(** The room A of [Examples.three], as the pod reports it, and with
    [membersCanInvite] off. *)
Definition A : V3RoomDetail := SmallPod.detail (SmallPod.a_room "A" true true 1 false).

Definition A_updated : V3RoomDetail :=
  {| room_attributes :=
       <["members_can_invite" := VBool false]> (<["name" := VStr "A"]> ∅);
     room_system_info := <["id" := VStr "A"]> ∅ |}.

Definition C_updated : V3RoomDetail :=
  {| room_attributes :=
       <["members_can_invite" := VBool false]> (<["name" := VStr "C"]> ∅);
     room_system_info := <["id" := VStr "C"]> ∅ |}.


(** A filter for the private rooms of internal scope. *)
Definition internal_private : V2AdminStreamFilter :=
  {| stream_types := ["ROOM"]; status := None; origin := None;
     scope := Some "INTERNAL"; privacy := Some "PRIVATE" |}.

(** An import of four of the rows on the small pod. *)
Definition import_four : M SmallPod.state unit :=
  update_rooms_from_csv (SmallPod.step 7) SmallPod.bot 2 "in.csv"
    [A_off; no_id; B_off; A_maybe] (Some "out.csv") None false true.

(** An export of the rooms of the small pod. *)
Definition export_all : M SmallPod.state unit :=
  export_rooms_to_csv (SmallPod.step 7) STREAM_FILTER_INTERNAL_ORIGIN_ACTIVE
    "out.csv" false.

End Rows.


(** * Properties *)


(** ** Room identifiers *)

Lemma rstrip_by_idem p s : PyStr.rstrip_by p (PyStr.rstrip_by p s) = PyStr.rstrip_by p s.
Proof.
  induction s as [|c r IH]; simpl; [reflexivity|].
  destruct (PyStr.rstrip_by p r) as [|c' r'] eqn:E.
  - destruct (p c) eqn:Hc; simpl; [reflexivity|]. now rewrite Hc.
  - simpl in *. now rewrite IH.
Qed.

Lemma rstrip_by_map p f s :
  (forall c, p (f c) = p c) ->
  PyStr.rstrip_by p (PyStr.map f s) = PyStr.map f (PyStr.rstrip_by p s).
Proof.
  intros Hp. induction s as [|c r IH]; simpl; [reflexivity|].
  rewrite IH. destruct (PyStr.rstrip_by p r); simpl.
  - rewrite Hp. now destruct (p c).
  - reflexivity.
Qed.

Lemma pystr_map_map f g s : PyStr.map f (PyStr.map g s) = PyStr.map (fun c => f (g c)) s.
Proof. induction s; simpl; congruence. Qed.

Lemma pystr_map_ext f g s : (forall c, f c = g c) -> PyStr.map f s = PyStr.map g s.
Proof. intros H. induction s; simpl; congruence. Qed.


Lemma url_safe_char_idem c : url_safe_char (url_safe_char c) = url_safe_char c.
Proof.
  unfold url_safe_char.
  destruct (Ascii.eqb c "+") eqn:E1; [reflexivity|].
  destruct (Ascii.eqb c "/") eqn:E2; [reflexivity|].
  now rewrite E1, E2.
Qed.

Lemma url_safe_char_eq c : Ascii.eqb (url_safe_char c) "=" = Ascii.eqb c "=".
Proof.
  unfold url_safe_char.
  destruct (Ascii.eqb c "+") eqn:E1.
  - apply Ascii.eqb_eq in E1. now subst.
  - destruct (Ascii.eqb c "/") eqn:E2; [|reflexivity].
    apply Ascii.eqb_eq in E2. now subst.
Qed.

Lemma url_safe_char_space c : PyStr.isspace (url_safe_char c) = PyStr.isspace c.
Proof.
  unfold url_safe_char.
  destruct (Ascii.eqb c "+") eqn:E1.
  - apply Ascii.eqb_eq in E1. now subst.
  - destruct (Ascii.eqb c "/") eqn:E2; [|reflexivity].
    apply Ascii.eqb_eq in E2. now subst.
Qed.

Lemma make_b64_id_safe_unfold x :
  _make_b64_id_safe x
  = PyStr.rstrip (PyStr.rstrip_char "=" (PyStr.map url_safe_char x)).
Proof.
  unfold _make_b64_id_safe, PyStr.replace. now rewrite pystr_map_map.
Qed.

(** Normalising twice changes nothing as soon as the first result does not
    end in the padding character. *)
Lemma make_b64_id_safe_stable x :
  PyStr.rstrip_char "=" (_make_b64_id_safe x) = _make_b64_id_safe x ->
  _make_b64_id_safe (_make_b64_id_safe x) = _make_b64_id_safe x.
Proof.
  intros H. rewrite (make_b64_id_safe_unfold (_make_b64_id_safe x)).
  assert (Hm : PyStr.map url_safe_char (_make_b64_id_safe x) = _make_b64_id_safe x).
  { rewrite (make_b64_id_safe_unfold x). unfold PyStr.rstrip, PyStr.rstrip_char.
    rewrite <- !rstrip_by_map.
    - rewrite pystr_map_map. f_equal. f_equal. apply pystr_map_ext, url_safe_char_idem.
    - apply url_safe_char_eq.
    - apply url_safe_char_space. }
  rewrite Hm, H. rewrite (make_b64_id_safe_unfold x).
  apply rstrip_by_idem.
Qed.

(** C4: [_make_b64_id_safe] is not idempotent: on ["a= "] it returns ["a="],
    which still ends in the padding character and which a second
    normalisation turns into ["a"]; on ["ab+c/d="] it returns ["ab-c_d"], on
    which a second normalisation changes nothing. *)
Theorem make_b64_id_safe_not_idempotent :
  _make_b64_id_safe "a= " = "a="
  /\ _make_b64_id_safe (_make_b64_id_safe "a= ") = "a"
  /\ _make_b64_id_safe (_make_b64_id_safe "a= ") <> _make_b64_id_safe "a= "
  /\ _make_b64_id_safe "ab+c/d=" = "ab-c_d"
  /\ _make_b64_id_safe (_make_b64_id_safe "ab+c/d=") = _make_b64_id_safe "ab+c/d=".
Proof. repeat split; try reflexivity. discriminate. Qed.

(** ** Booleans of the CSV *)

Lemma in_tuple_In x t : PyStr.in_tuple x t = true <-> In x t.
Proof.
  unfold PyStr.in_tuple. rewrite existsb_exists. split.
  - intros (y & Hy & E). apply String.eqb_eq in E. now subst.
  - intros H. exists x. split; [assumption|apply String.eqb_refl].
Qed.

(** C8: [_string_to_bool] returns [True] exactly on the strings whose lower
    case is one of y, yes, t, true, on, 1, returns [False] exactly on those
    whose lower case is one of n, no, f, false, off, 0, and on every other
    string executes [raise None], which raises a [TypeError] and not an error
    of validation. *)
Theorem string_to_bool_raise_none :
  (forall val, _string_to_bool val = Ok true
     <-> In (PyStr.lower val) ["y"; "yes"; "t"; "true"; "on"; "1"])
  /\ (forall val, _string_to_bool val = Ok false
     <-> ~ In (PyStr.lower val) ["y"; "yes"; "t"; "true"; "on"; "1"]
         /\ In (PyStr.lower val) ["n"; "no"; "f"; "false"; "off"; "0"])
  /\ (forall val, _string_to_bool val = Raise RAISE_NONE
     <-> ~ In (PyStr.lower val) ["y"; "yes"; "t"; "true"; "on"; "1"]
         /\ ~ In (PyStr.lower val) ["n"; "no"; "f"; "false"; "off"; "0"])
  /\ _string_to_bool "YES" = Ok true /\ _string_to_bool "1" = Ok true
  /\ _string_to_bool "On" = Ok true /\ _string_to_bool "no" = Ok false
  /\ _string_to_bool "0" = Ok false /\ _string_to_bool "Off" = Ok false
  /\ _string_to_bool "maybe" = Raise (TypeError "exceptions must derive from BaseException").
Proof.
  split; [|split; [|split]]; [| | |repeat split; reflexivity].
  all: intros val; unfold _string_to_bool;
    destruct (PyStr.in_tuple (PyStr.lower val) ["y"; "yes"; "t"; "true"; "on"; "1"]) eqn:E1;
    [ apply in_tuple_In in E1
    | assert (N1 : ~ In (PyStr.lower val) ["y"; "yes"; "t"; "true"; "on"; "1"])
        by (rewrite <- in_tuple_In; congruence);
      destruct (PyStr.in_tuple (PyStr.lower val) ["n"; "no"; "f"; "false"; "off"; "0"]) eqn:E2;
      [ apply in_tuple_In in E2
      | assert (N2 : ~ In (PyStr.lower val) ["n"; "no"; "f"; "false"; "off"; "0"])
          by (rewrite <- in_tuple_In; congruence) ] ].
  all: split; try tauto; try discriminate; intros; try tauto.
Qed.

(** ** The modification predicate *)

Lemma py_eq_refl v : py_eq v v = true.
Proof.
  destruct v; simpl; auto using String.eqb_refl, Z.eqb_refl.
  now destruct b.
Qed.

Lemma is_none_false v : is_none v = false <-> v <> VNone.
Proof. destruct v; simpl; split; congruence. Qed.

Lemma check_room_modified_iff (old_settings new_settings : attrs) :
  _check_room_modified old_settings new_settings = true
  <-> exists attribute n o,
        In attribute (Dict.keys ROOM_TO_CSV_ROOM_MAP)
        /\ new_settings !! attribute = Some n
        /\ old_settings !! attribute = Some o
        /\ n <> VNone /\ py_eq n o = false.
Proof.
  unfold _check_room_modified. rewrite existsb_exists. split.
  - intros (a & Hin & H).
    destruct (new_settings !! a) as [n|] eqn:En; [|discriminate].
    destruct (old_settings !! a) as [o|] eqn:Eo; [|discriminate].
    apply andb_prop in H as [H1 H2].
    apply negb_true_iff in H1, H2.
    exists a, n, o. repeat split; auto. now apply is_none_false.
  - intros (a & n & o & Hin & En & Eo & Hn & Hd).
    exists a. split; [assumption|]. rewrite En, Eo, Hd.
    apply is_none_false in Hn. now rewrite Hn.
Qed.

(** C6, amended: [_check_room_modified] returns true if and only if some
    compared attribute is set in both records, is not [None] in the desired
    one and differs from the current one; an attribute that the current
    record lacks never counts.  When every attribute of the desired record is
    unset or [None] it returns false for every current record. *)
Theorem check_room_modified_present_in_both (old_settings new_settings : attrs) :
  (_check_room_modified old_settings new_settings = true
   <-> exists attribute n o,
         In attribute (Dict.keys ROOM_TO_CSV_ROOM_MAP)
         /\ new_settings !! attribute = Some n
         /\ old_settings !! attribute = Some o
         /\ n <> VNone /\ py_eq n o = false)
  /\ ((forall attribute,
         new_settings !! attribute = None \/ new_settings !! attribute = Some VNone) ->
      _check_room_modified old_settings new_settings = false).
Proof.
  split; [apply check_room_modified_iff|].
  intros H. unfold _check_room_modified.
  apply not_true_is_false. rewrite existsb_exists.
  intros (a & _ & Ha).
  destruct (H a) as [E|E]; rewrite E in Ha; [discriminate|].
  destruct (old_settings !! a); discriminate.
Qed.

Lemma check_room_modified_present_in_both_witness :
  _check_room_modified (<["name" := VStr "lobby"]> ∅)
                       (<["discoverable" := VNone]> ∅) = false.
Proof.
  apply check_room_modified_present_in_both.
  intros attribute.
  destruct (decide (attribute = "discoverable")) as [->|Hne].
  - right. apply lookup_insert_eq.
  - left. rewrite lookup_insert_ne by congruence. apply lookup_empty.
Defined.

(** C6 fails as stated: with [members_can_invite] set to [True] in the desired
    record and no attribute in the current one, a requested attribute differs
    from an absent one, and [_check_room_modified] returns false. *)
Lemma check_room_modified_ignores_absent :
  differs_or_absent ∅ (<["members_can_invite" := VBool true]> ∅) = true
  /\ _check_room_modified ∅ (<["members_can_invite" := VBool true]> ∅) = false.
Proof. split; vm_compute; reflexivity. Qed.

(** ** The mapping of CSV rows *)

Lemma copy_protected_type attribute name type :
  Dict.get attribute CSV_ROOM_TO_ROOM_ATTRIBUTES_MAP = Some (name, type) ->
  name = "copy_protected" -> type = "bool+".
Proof.
  unfold CSV_ROOM_TO_ROOM_ATTRIBUTES_MAP. simpl.
  repeat match goal with
         | |- context [String.eqb attribute ?k] => destruct (String.eqb attribute k)
         end; intros H; inversion H; subst; try discriminate; reflexivity.
Qed.

Lemma parse_cell_copy_protected sid attribute cell name type acc logs acc' :
  Dict.get attribute CSV_ROOM_TO_ROOM_ATTRIBUTES_MAP = Some (name, type) ->
  parse_cell sid attribute cell (name, type) acc = (logs, Ok acc') ->
  acc !! "copy_protected" = None -> acc' !! "copy_protected" = None.
Proof.
  intros Hmap Hcell Hacc.
  destruct (decide (name = "copy_protected")) as [->|Hne].
  - apply copy_protected_type in Hmap; [|reflexivity]. subst type.
    unfold parse_cell in Hcell. destruct cell; try discriminate.
    change (PyStr.endswith "*" "bool+") with false in Hcell.
    change (PyStr.startswith "bool" "bool+") with true in Hcell.
    change (PyStr.endswith "+" "bool+") with true in Hcell.
    simpl in Hcell.
    destruct (cell_text s); [|inversion Hcell; subst; assumption].
    destruct (_string_to_bool s0); inversion Hcell; subst; assumption.
  - unfold parse_cell in Hcell. destruct cell; try discriminate.
    destruct (PyStr.endswith "*" type && is_empty_str (cell_text s));
      [inversion Hcell; subst; assumption|].
    destruct (cell_text s); [|inversion Hcell; subst; assumption].
    destruct (PyStr.startswith "bool" type).
    + destruct (_string_to_bool s0); [|discriminate].
      destruct (PyStr.endswith "+" type); inversion Hcell; subst;
        [assumption|]. now rewrite lookup_insert_ne.
    + destruct (PyStr.contains "_b64_" type); inversion Hcell; subst;
        now rewrite lookup_insert_ne.
Qed.

Lemma parse_row_cons sid attribute cell rest acc :
  parse_row sid ((attribute, cell) :: rest) acc
  = match Dict.get attribute CSV_ROOM_TO_ROOM_ATTRIBUTES_MAP with
    | None => parse_row sid rest acc
    | Some room_map =>
        match parse_cell sid attribute cell room_map acc with
        | (logs, Ok room_attributes) =>
            let '(logs', r) := parse_row sid rest room_attributes in
            (logs ++ logs', r)
        | (logs, Raise e) => (logs, Raise e)
        end
    end.
Proof. reflexivity. Qed.

Lemma parse_row_copy_protected sid items : forall acc,
  acc !! "copy_protected" = None ->
  match snd (parse_row sid items acc) with
  | Ok room_attributes => room_attributes !! "copy_protected" = None
  | Raise _ => True
  end.
Proof.
  induction items as [|[attribute cell] rest IH]; intros acc Hacc;
    [assumption|].
  rewrite parse_row_cons.
  destruct (Dict.get attribute CSV_ROOM_TO_ROOM_ATTRIBUTES_MAP) as [[name type]|] eqn:Hmap;
    [|now apply IH].
  destruct (parse_cell sid attribute cell (name, type) acc) as [logs [acc'|e]] eqn:Hcell;
    [|exact I].
  specialize (IH acc' (parse_cell_copy_protected _ _ _ _ _ _ _ _ Hmap Hcell Hacc)).
  now destruct (parse_row sid rest acc').
Qed.

(** C7: a [copyProtected] cell is dropped whatever it parses to: no row gives
    room attributes in which [copy_protected] is set, and the row with
    [copyProtected] ["true"] gives no attribute at all, with the log record
    that says the cell is ignored. *)
Theorem copy_protected_always_ignored :
  (forall room_row,
     match snd (_csv_room_settings_to_v3_room_attributes room_row) with
     | Ok room_attributes => room_attributes !! "copy_protected" = None
     | Raise _ => True
     end)
  /\ _csv_room_settings_to_v3_room_attributes
       [("streamId", VStr "abc"); ("copyProtected", VStr "true")]
     = ([entry INFO
           "[{stream_id}] Attribute {attribute} set to {value}. {attribute} can only be set to true... Ignoring..."
           [AStr "abc"; AStr "copyProtected"; AVal (VStr "true")]],
        Ok ∅).
Proof.
  split; [|vm_compute; reflexivity].
  intros room_row. unfold _csv_room_settings_to_v3_room_attributes.
  destruct (Dict.get "streamId" room_row) as [[]|]; simpl; try exact I.
  apply parse_row_copy_protected, lookup_empty.
Qed.

(** ** Export followed by import *)













(** ** Rules for [hoare] *)

Section Rules.

Context {S : Type}.
Implicit Types P : World S -> Prop.

Lemma hoare_conseq {A} P P' (m : M S A) (Q Q' : result A -> World S -> Prop) :
  hoare P m Q -> (forall w, P' w -> P w) -> (forall r w, Q r w -> Q' r w) ->
  hoare P' m Q'.
Proof.
  intros H HP HQ w Hw. destruct (H w (HP w Hw)) as (r & w' & E & Hq).
  exists r, w'. auto.
Qed.

Lemma hoare_weaken {A} P P' (m : M S A) Q :
  hoare P m Q -> (forall w, P' w -> P w) -> hoare P' m Q.
Proof. intros H HP w Hw. exact (H w (HP w Hw)). Qed.

Lemma hoare_pre {A} (phi : Prop) P (m : M S A) Q :
  (forall w, P w -> phi) -> (phi -> hoare P m Q) -> hoare P m Q.
Proof. intros H1 H2 w Hw. exact (H2 (H1 w Hw) w Hw). Qed.

Lemma hoare_exists {A X} (P : X -> World S -> Prop) (m : M S A) Q :
  (forall x, hoare (P x) m Q) -> hoare (fun w => exists x, P x w) m Q.
Proof. intros H w [x Hx]. exact (H x w Hx). Qed.

Lemma hoare_ret {A} P (a : A) (Q : result A -> World S -> Prop) :
  (forall w, P w -> Q (Ok a) w) -> hoare P (ret a) Q.
Proof. intros H w Hw. exists (Ok a), w. split; [reflexivity|auto]. Qed.

Lemma hoare_raise {A} P e (Q : result A -> World S -> Prop) :
  (forall w, P w -> Q (Raise e) w) -> hoare P (raise e) Q.
Proof. intros H w Hw. exists (Raise e), w. split; [reflexivity|auto]. Qed.

Lemma hoare_bind {A B} P (m : M S A) (k : A -> M S B) R Q :
  hoare P m R ->
  (forall a, hoare (R (Ok a)) (k a) Q) ->
  (forall e w, R (Raise e) w -> Q (Raise e) w) ->
  hoare P (bind m k) Q.
Proof.
  intros Hm Hk He w Hw. destruct (Hm w Hw) as ([a|e] & w' & E & Hr).
  - destruct (Hk a w' Hr) as (r & w'' & E' & Hq).
    exists r, w''. unfold bind. rewrite E. auto.
  - exists (Raise e), w'. unfold bind. rewrite E. auto.
Qed.

Lemma hoare_try {A} P (m : M S A) (h : exn -> M S A) R Q :
  hoare P m R ->
  (forall e, hoare (R (Raise e)) (h e) Q) ->
  (forall a w, R (Ok a) w -> Q (Ok a) w) ->
  hoare P (try_catch m h) Q.
Proof.
  intros Hm Hh Ha w Hw. destruct (Hm w Hw) as ([a|e] & w' & E & Hr).
  - exists (Ok a), w'. unfold try_catch. rewrite E. auto.
  - destruct (Hh e w' Hr) as (r & w'' & E' & Hq).
    exists r, w''. unfold try_catch. rewrite E. auto.
Qed.


Lemma hoare_log {A} P l fmt args (k : M S A) Q :
  pod_only P -> hoare P k Q -> hoare P (bind (log l fmt args) (fun _ => k)) Q.
Proof.
  intros HP Hk w Hw. unfold bind, log.
  apply Hk. revert Hw. apply HP. reflexivity.
Qed.

End Rules.

Lemma not_member_not_owner uid :
  NOT_ROOM_MEMBER_MESSAGE uid <> NOT_ROOM_OWNER_MESSAGE.
Proof. discriminate. Qed.

Lemma update_room_S {S} (pod : forall c : Bdk.call, S -> result (Bdk.ret c) * S)
    bot_info fuel stream_id settings pre_check :
  update_room pod bot_info (Datatypes.S fuel) stream_id settings pre_check
  = let stream_id := _make_b64_id_safe stream_id in
    try_catch (update_room_try pod stream_id settings pre_check)
      (fun err =>
         bind (json_loads_body err) (fun reason =>
         if has_message NOT_ROOM_OWNER_MESSAGE reason then
           try_catch
             (bind (log DEBUG "[{}] Bot is not owner. Attempting to make bot an owner."
                      [AStr stream_id]) (fun _ =>
              bind (_promote_self_and_update_room pod bot_info
                      (update_room pod bot_info fuel) stream_id settings)
                   (fun updated_stream =>
              bind (_demote_self_for_room pod bot_info stream_id) (fun _ =>
              ret updated_stream))))
             (fun inner_err =>
                try_catch
                  (bind (json_loads_body inner_err) (fun reason =>
                   if has_message (NOT_ROOM_MEMBER_MESSAGE (user_id bot_info)) reason
                   then
                     try_catch
                       (bind (_add_self_and_update_room pod bot_info
                                (update_room pod bot_info fuel) stream_id settings)
                             (fun updated_stream =>
                        bind (_remove_self_from_room pod bot_info stream_id) (fun _ =>
                        ret updated_stream)))
                       (fun _ => _update_room_exception_handler stream_id inner_err)
                   else _update_room_exception_handler stream_id err))
                  (fun _ => _update_room_exception_handler stream_id err))
         else _update_room_exception_handler stream_id err)).
Proof. reflexivity. Qed.

Section Recovery.

Context {S : Type}.
Variable pod : forall c : Bdk.call, S -> result (Bdk.ret c) * S.
Variable bot_info : UserV2.
Variable member owner : S -> string -> bool.
Hypothesis L : lawful pod bot_info member owner.

Variable i : string.
Variable settings : attrs.
Hypothesis Hi : stable i.

(** What is to hold of the pod once the settings are in place. *)
Variable G : S -> Prop.
Hypothesis G_update : forall s room,
  fst (pod (Bdk.update_room i settings) s) = Ok room ->
  G (snd (pod (Bdk.update_room i settings) s)).
Hypothesis G_kept : forall c s,
  match c with Bdk.update_room _ _ => False | _ => True end ->
  G s -> G (snd (pod c s)).
Hypothesis G_read : forall s room,
  fst (pod (Bdk.get_room_info i) s) = Ok room ->
  _check_room_modified (room_attributes room) settings = false -> G s.

Let uid := user_id bot_info.

Local Abbreviation rel := (bot_rel member owner i).
Local Abbreviation relG := (bot_rel_settled member owner i G).
Local Abbreviation sound := (reason_sound (user_id bot_info)).
Local Abbreviation failed := (promotion_failed member owner i (user_id bot_info)).


Lemma rel_pod_only m o : pod_only (rel m o).
Proof. intros w w' E [H1 H2]. unfold bot_rel. now rewrite <- E. Qed.

Lemma relG_pod_only m o : pod_only (relG m o).
Proof. intros w w' E [[H1 H2] H3]. unfold bot_rel_settled, bot_rel. now rewrite <- E. Qed.

Lemma sound_other e m o :
  match e with ApiException _ _ => False | _ => True end -> sound e m o.
Proof. intros H text. split; intros ->; contradiction. Qed.

(** The facts that the laws give about one call on the room. *)
Lemma call_failure c s e m o :
  Bdk.room c = Some i -> fst (pod c s) = Raise e ->
  member s i = m -> owner s i = o ->
  member (snd (pod c s)) i = m /\ owner (snd (pod c s)) i = o /\ sound e m o.
Proof.
  intros Hc He Hm Ho.
  destruct (law_failure _ _ _ _ L c i s e Hc He) as [H1 H2].
  repeat split; try congruence.
  - intros ->. rewrite <- Ho. eapply law_not_owner; eauto.
  - intros ->. rewrite <- Hm. eapply law_not_member; eauto.
Qed.

Ltac start w Hm Ho :=
  intros w [Hm Ho]; cbn [pod_state] in Hm, Ho.

Lemma promote_spec m o :
  hoare (rel m o) (_promote_self_to_owner pod bot_info i)
    (fun r w => match r with
                | Ok _ => rel m true w
                | Raise e => rel m o w /\ sound e m o
                end).
Proof.
  intros w [Hm Ho]. unfold _promote_self_to_owner, bind, call, log.
  destruct (pod (Bdk.promote_user_to_room_owner (user_id bot_info) i) (pod_state w))
    as [r s] eqn:E.
  destruct r as [[]|e]; eexists _, _; (split; [reflexivity|]); unfold bot_rel; cbn.
  - destruct (law_promote _ _ _ _ L i (pod_state w)) as [H1 H2];
      rewrite E in *; cbn in *; [reflexivity|]. split; congruence.
  - destruct (call_failure (Bdk.promote_user_to_room_owner (user_id bot_info) i)
                (pod_state w) e m o) as (H1 & H2 & H3);
      rewrite ?E in *; cbn in *; auto.
Qed.

Lemma remove_spec m o :
  hoare (relG m o) (_remove_self_from_room pod bot_info i)
    (fun r w => match r with
                | Ok _ => relG false false w
                | Raise e => True
                end).
Proof.
  intros w [[Hm Ho] Hg]. unfold _remove_self_from_room, bind, call, log.
  pose proof (G_kept (Bdk.remove_member_from_room (user_id bot_info) i) (pod_state w) I Hg) as Hg'.
  destruct (pod (Bdk.remove_member_from_room (user_id bot_info) i) (pod_state w))
    as [r s] eqn:E.
  destruct r as [[]|e]; eexists _, _; (split; [reflexivity|]); unfold bot_rel_settled, bot_rel; cbn;
    [|exact I].
  destruct (law_remove _ _ _ _ L i (pod_state w)) as [H1 H2];
    rewrite E in *; cbn in *; [reflexivity|]. auto.
Qed.

Lemma demote_spec m o :
  hoare (relG m o) (_demote_self_for_room pod bot_info i)
    (fun r w => match r with
                | Ok _ =>
                    G (pod_state w)
                    /\ (rel m false w
                        \/ rel m o w
                           /\ last (logs w) = Some (ONLY_OWNER_ENTRY bot_info i))
                | Raise e => rel m o w /\ sound e m o
                end).
Proof.
  intros w [[Hm Ho] Hg].
  unfold _demote_self_for_room, try_catch, bind, call, log, json_loads_body, ret, raise.
  pose proof (G_kept (Bdk.demote_owner_to_room_participant (user_id bot_info) i)
                (pod_state w) I Hg) as Hg'.
  destruct (pod (Bdk.demote_owner_to_room_participant (user_id bot_info) i) (pod_state w))
    as [r s] eqn:E.
  destruct r as [[]|e].
  - eexists _, _; (split; [reflexivity|]). unfold bot_rel; cbn.
    destruct (law_demote _ _ _ _ L i (pod_state w)) as [H1 H2];
      rewrite E in *; cbn in *; [reflexivity|]. split; [assumption|]. left.
    split; congruence.
  - destruct (call_failure (Bdk.demote_owner_to_room_participant (user_id bot_info) i)
                (pod_state w) e m o) as (H1 & H2 & H3);
      rewrite ?E in *; cbn in *; auto.
    destruct e as [text message| | | |];
      try (eexists _, _; (split; [reflexivity|]); unfold bot_rel; cbn;
           split; [auto|now apply sound_other]).
    destruct (has_message NOT_ABLE_TO_DEMOTE_ONLY_OWNER message) eqn:Em;
      eexists _, _; (split; [reflexivity|]); unfold bot_rel; cbn.
    + split; [assumption|]. right. split; [auto|]. apply last_snoc.
    + auto.
Qed.

Lemma add_spec m o :
  hoare (rel m o) (_add_self_to_room pod bot_info i)
    (fun r w => match r with
                | Ok _ => exists m', rel m' o w
                | Raise e => True
                end).
Proof.
  intros w [Hm Ho].
  unfold _add_self_to_room, try_catch, bind, call, log, json_loads_body, ret, raise.
  destruct (pod (Bdk.add_member_to_room (user_id bot_info) i) (pod_state w))
    as [r s] eqn:E.
  destruct r as [[]|e].
  - eexists _, _; (split; [reflexivity|]). exists true. unfold bot_rel; cbn.
    destruct (law_add _ _ _ _ L i (pod_state w)) as [H1 H2];
      rewrite E in *; cbn in *; [reflexivity|]. split; congruence.
  - destruct (call_failure (Bdk.add_member_to_room (user_id bot_info) i)
                (pod_state w) e m o) as (H1 & H2 & H3);
      rewrite ?E in *; cbn in *; auto.
    destruct e as [text message| | | |];
      try (eexists _, _; (split; [reflexivity|]); exact I).
    destruct (has_message NOT_ABLE_TO_JOIN_MULTILATERAL_ROOMS message) eqn:Em;
      eexists _, _; (split; [reflexivity|]); [|exact I].
    exists m. unfold bot_rel; cbn. auto.
Qed.

Lemma handler_spec {A} m o e :
  hoare (rel m o) (_update_room_exception_handler (A := A) i e)
    (fun r w => r = Raise e /\ rel m o w).
Proof.
  intros w Hw. unfold _update_room_exception_handler, bind, log, raise, ret.
  destruct e; eexists _, _; (split; [reflexivity|]); split; try reflexivity;
    revert Hw; apply rel_pod_only; reflexivity.
Qed.

Lemma handler_ends {A} P e (Q : result A -> World S -> Prop) :
  (forall w, Q (Raise e) w) ->
  hoare P (_update_room_exception_handler i e) Q.
Proof.
  intros HQ w Hw. unfold _update_room_exception_handler, bind, log, raise, ret.
  destruct e; eexists _, _; (split; [reflexivity|]); apply HQ.
Qed.

Lemma get_room_info_spec m o :
  hoare (rel m o) (get_room_info pod i)
    (fun r w => rel m o w
                /\ match r with
                   | Ok room =>
                       _check_room_modified (room_attributes room) settings = false ->
                       G (pod_state w)
                   | Raise e => sound e m o
                   end).
Proof.
  intros w [Hm Ho]. unfold get_room_info. rewrite Hi.
  unfold bind, log, call, ret. cbn [pod_state].
  pose proof (law_get _ _ _ _ L i (pod_state w)) as [H1 H2].
  pose proof (G_read (pod_state w)) as Hg.
  pose proof (G_kept (Bdk.get_room_info i) (pod_state w) I) as Hk.
  destruct (pod (Bdk.get_room_info i) (pod_state w)) as [r s] eqn:E.
  cbn [fst snd] in H1, H2, Hg, Hk.
  destruct r as [room|e]; eexists _, _; (split; [reflexivity|]);
    unfold bot_rel; cbn [pod_state].
  - split; [split; congruence|]. eauto.
  - destruct (call_failure (Bdk.get_room_info i) (pod_state w) e m o)
      as (H3 & H4 & H5); rewrite ?E in *; cbn [fst snd] in *; auto.
Qed.

Lemma update_call_spec m o :
  hoare (rel m o)
    (bind (log DEBUG "[{}] Calling update_room" [AStr i]) (fun _ =>
     bind (call pod (Bdk.update_room i settings)) (fun updated_stream =>
     bind (log INFO "[{}] Updated Stream - New Settings: {}"
             [AStr i; AAttrs (room_attributes updated_stream)]) (fun _ =>
     ret updated_stream))))
    (fun r w => rel m o w
                /\ match r with
                   | Ok _ => G (pod_state w)
                   | Raise e => sound e m o
                   end).
Proof.
  intros w [Hm Ho]. unfold bind, call, log, ret. cbn [pod_state].
  pose proof (G_update (pod_state w)) as Hg.
  pose proof (law_update _ _ _ _ L i settings (pod_state w)) as [H1 H2].
  destruct (pod (Bdk.update_room i settings) (pod_state w)) as [r s] eqn:E.
  cbn [fst snd] in *. destruct r as [room|e]; eexists _, _; (split; [reflexivity|]);
    unfold bot_rel; cbn [pod_state].
  - split; [split; congruence|]. eapply Hg. reflexivity.
  - destruct (call_failure (Bdk.update_room i settings) (pod_state w) e m o)
      as (H3 & H4 & H5); rewrite ?E in *; cbn [fst snd] in *; auto.
Qed.

Lemma try_spec m o pre_check :
  hoare (rel m o) (update_room_try pod i settings pre_check)
    (fun r w => rel m o w
                /\ match r with
                   | Ok _ => G (pod_state w)
                   | Raise e => sound e m o
                   end).
Proof.
  unfold update_room_try.
  apply hoare_bind with
    (R := fun r w => rel m o w
                     /\ match r with
                        | Ok (Some _) => G (pod_state w)
                        | Ok None => True
                        | Raise e => sound e m o
                        end).
  - destruct pre_check; [|apply hoare_ret; auto].
    eapply hoare_bind; [apply get_room_info_spec| |intros e w H; exact H].
    intros room. cbv beta.
    destruct (_check_room_modified (room_attributes room) settings) eqn:Ec;
      cbn [negb].
    + apply hoare_ret. intros w [H _]. auto.
    + intros w [[Hm Ho] Hg]. unfold bind, log, ret.
      eexists _, _; (split; [reflexivity|]). unfold bot_rel; cbn [pod_state]. auto.
  - intros [room|].
    + apply hoare_ret. auto.
    + eapply hoare_conseq; [apply (update_call_spec m o)|intros w [H _]; exact H|auto].
  - auto.
Qed.

Lemma has_message_true m reason :
  has_message m reason = true -> reason = Some m.
Proof.
  destruct reason as [m'|]; simpl; [|discriminate].
  intros H. apply String.eqb_eq in H. now subst.
Qed.

(** With the bot an owner, [update_room] does not enter the recovery. *)
Lemma update_room_owner_spec m fuel :
  hoare (rel m true)
    (update_room pod bot_info (Datatypes.S fuel) i settings false)
    (fun r w => rel m true w
                /\ match r with
                   | Ok _ => G (pod_state w)
                   | Raise e => sound e m true
                   end).
Proof.
  rewrite update_room_S. cbv zeta. rewrite Hi.
  eapply hoare_try; [apply try_spec| |auto].
  intros err.
  apply hoare_pre with (phi := sound err m true); [now intros w [_ H]|].
  intros Hs.
  destruct err as [text message| | | |];
    try (apply hoare_raise; intros w [H _]; split;
         [exact H|now apply sound_other]).
  unfold json_loads_body.
  eapply hoare_bind with (R := fun r w => r = Ok message /\ rel m true w).
  - apply hoare_ret. intros w [H _]. auto.
  - intros reason.
    apply hoare_pre with (phi := reason = message);
      [intros w [H _]; congruence|intros ->].
    destruct (has_message NOT_ROOM_OWNER_MESSAGE message) eqn:Em.
    + apply has_message_true in Em. subst message.
      destruct (Hs text) as [H _]. discriminate (H eq_refl).
    + eapply hoare_conseq; [apply (handler_spec m true)|now intros w [_ H]|].
      intros r w [-> H]. auto.
  - intros e w [H _]. discriminate.
Qed.


Lemma sound_failed m o e w : rel m o w /\ sound e m o -> failed m e w.
Proof. intros [H1 H2]. split; [eauto|]. intros t. apply (H2 t). Qed.

(** [update_room], from any relation of the bot to the room. *)
Lemma update_room_spec m o fuel pre_check :
  hoare (rel m o)
    (update_room pod bot_info (Datatypes.S (Datatypes.S fuel)) i settings pre_check)
    (fun r w => match r with
                | Ok _ =>
                    G (pod_state w)
                    /\ (rel m o w
                        \/ rel m true w
                           /\ last (logs w) = Some (ONLY_OWNER_ENTRY bot_info i))
                | Raise _ => True
                end).
Proof.
  rewrite update_room_S. cbv zeta. rewrite Hi.
  eapply hoare_try; [apply try_spec| |intros a w [H1 H2]; auto].
  intros err.
  apply hoare_pre with (phi := sound err m o); [now intros w [_ H]|].
  intros Hs.
  destruct err as [text message| | | |]; try (apply hoare_raise; auto).
  unfold json_loads_body.
  eapply hoare_bind with (R := fun r w => r = Ok message /\ rel m o w);
    [apply hoare_ret; intros w [H _]; auto| |intros e w [H _]; discriminate].
  intros reason.
  apply hoare_pre with (phi := reason = message);
    [intros w [H _]; congruence|intros ->].
  destruct (has_message NOT_ROOM_OWNER_MESSAGE message) eqn:Em;
    [|apply handler_ends; auto].
  apply has_message_true in Em. subst message.
  destruct (Hs text) as [Ho _]. specialize (Ho eq_refl). subst o.
  apply hoare_weaken with (P := rel m false); [|now intros w [_ H]].
  (* promote, update, demote *)
  eapply hoare_try with
    (R := fun r w =>
            match r with
            | Ok _ =>
                G (pod_state w)
                /\ (rel m false w
                    \/ rel m true w
                       /\ last (logs w) = Some (ONLY_OWNER_ENTRY bot_info i))
            | Raise e => failed m e w
            end).
  - apply hoare_log; [apply rel_pod_only|].
    unfold _promote_self_and_update_room.
    eapply hoare_bind with (R := fun r w => match r with
                                            | Ok _ => relG m true w
                                            | Raise e => failed m e w
                                            end).
    + eapply hoare_bind; [apply promote_spec| |].
      * intros ?. eapply hoare_conseq;
          [apply (update_room_owner_spec m fuel)|auto|].
        intros [a'|e] w H; [exact H|]. eapply sound_failed, H.
      * intros e w H. eapply sound_failed, H.
    + intros updated. eapply hoare_bind; [apply demote_spec| |].
      * intros ?. apply hoare_ret. auto.
      * intros e w H. eapply sound_failed, H.
    + auto.
  - (* the bot may not be a member *)
    intros inner_err.
    apply hoare_pre with
      (phi := forall t, inner_err = ApiException t (Some (NOT_ROOM_MEMBER_MESSAGE uid)) ->
                        m = false); [now intros w [_ H]|].
    unfold promotion_failed.
    intros Hin.
    apply hoare_weaken with (P := fun w => exists o', rel m o' w);
      [|now intros w [H _]].
    apply hoare_exists. intros o'.
    eapply hoare_try with
      (R := fun r w =>
              match r with
              | Ok _ => G (pod_state w) /\ rel m false w
              | Raise _ => True
              end);
      [|intros e; apply handler_ends; auto|intros a w [H1 H2]; auto].
    destruct inner_err as [text' message'| | | |]; try (apply hoare_raise; auto).
    unfold json_loads_body.
    eapply hoare_bind with (R := fun r w => r = Ok message' /\ rel m o' w);
      [apply hoare_ret; auto| |intros e w [H _]; discriminate].
    intros reason.
    apply hoare_pre with (phi := reason = message');
      [intros w [H _]; congruence|intros ->].
    destruct (has_message (NOT_ROOM_MEMBER_MESSAGE (user_id bot_info)) message') eqn:Em';
      [|apply handler_ends; auto].
    apply has_message_true in Em'. subst message'.
    specialize (Hin text' eq_refl). subst m.
    apply hoare_weaken with (P := rel false o'); [|now intros w [_ H]].
    eapply hoare_try with
      (R := fun r w =>
              match r with
              | Ok _ => G (pod_state w) /\ rel false false w
              | Raise _ => True
              end);
      [|intros e; apply handler_ends; auto|auto].
    unfold _add_self_and_update_room.
    eapply hoare_bind with (R := fun r w => match r with
                                            | Ok _ => exists m', relG m' true w
                                            | Raise e => True
                                            end); [| |auto].
    + apply hoare_log; [apply rel_pod_only|].
      eapply hoare_bind; [apply add_spec| |auto].
      intros ?. apply hoare_exists. intros m'.
      eapply hoare_bind; [apply promote_spec| |auto].
      intros ?. eapply hoare_conseq;
        [apply (update_room_owner_spec m' fuel)|auto|].
      intros [a'|e] w [H1 H2]; [exists m'; split; assumption|exact I].
    + intros updated. apply hoare_exists. intros m'.
      eapply hoare_bind; [apply remove_spec| |auto].
      intros ?. apply hoare_ret. intros w [H1 H2]. auto.
  - auto.
Qed.

End Recovery.

(** ** The small pod obeys the laws *)

Module SmallPodLaws.
Import SmallPod.

Ltac cases :=
  repeat match goal with
         | |- context [match ?s !! ?i with _ => _ end] =>
             destruct (s !! i) eqn:?
         | |- context [if ?b then _ else _] => destruct b eqn:?
         end.

(** The reason of a failed call, read off the response. *)
Ltac reasons H :=
  repeat match type of H with
         | context [if ?b then _ else _] => destruct b eqn:?
         end;
  cbn [fst] in H;
  unfold not_found, NOT_ROOM_OWNER_MESSAGE, NOT_ROOM_MEMBER_MESSAGE,
    NOT_ABLE_TO_DEMOTE_ONLY_OWNER in H;
  cbn [String.append] in H;
  first [discriminate H | assumption | reflexivity].

Lemma step_raise b c s e :
  fst (step b c s) = Raise e -> snd (step b c s) = s.
Proof.
  destruct c; cbn [step]; cases; cbn [fst snd]; try reflexivity; discriminate.
Qed.

Lemma member_insert s i r : member (<[i := r]> s) i = bot_member r.
Proof. unfold member. now rewrite lookup_insert_eq. Qed.

Lemma owner_insert s i r : owner (<[i := r]> s) i = bot_owner r.
Proof. unfold owner. now rewrite lookup_insert_eq. Qed.

Lemma step_lawful b : lawful (step (user_id b)) b member owner.
Proof.
  split.
  - intros c i s e _ H. now rewrite (step_raise _ _ _ _ H).
  - intros i s. cbn [step]. now destruct (s !! i).
  - intros i a s. cbn [step]. unfold member, owner.
    destruct (s !! i) as [r|] eqn:E; cbn [snd]; [|now rewrite E].
    destruct (out_of_order r); cbn [snd]; [now rewrite E|].
    destruct (bot_owner r) eqn:Eo; cbn [snd]; [|now rewrite E].
    rewrite lookup_insert_eq. cbn. auto.
  - intros i s. cbn [step]. rewrite Z.eqb_refl.
    destruct (s !! i) as [r|] eqn:E; cbn [fst snd]; [|discriminate].
    intros _. rewrite member_insert, owner_insert. unfold owner. now rewrite E.
  - intros i s. cbn [step]. rewrite Z.eqb_refl.
    destruct (s !! i) as [r|] eqn:E; cbn [fst snd]; [|discriminate].
    intros _. now rewrite member_insert, owner_insert.
  - intros i s. cbn [step]. rewrite Z.eqb_refl. cbn [negb].
    destruct (s !! i) as [r|] eqn:E; cbn [fst snd]; [|discriminate].
    destruct (bot_member r) eqn:Em; cbn [fst snd]; [|discriminate].
    intros _. rewrite member_insert, owner_insert. unfold member. now rewrite E.
  - intros i s. cbn [step]. rewrite Z.eqb_refl. cbn [negb].
    destruct (s !! i) as [r|] eqn:E; cbn [fst snd]; [|discriminate].
    destruct (bot_owner r && Nat.eqb (other_owners r) 0); cbn [fst snd];
      [discriminate|].
    intros _. rewrite member_insert, owner_insert. unfold member. now rewrite E.
  - intros c i s text Hc H. unfold owner.
    destruct c; cbn [step] in H; cbn in Hc; inversion Hc; subst;
      destruct (s !! i) as [r|] eqn:E; try reflexivity; reasons H.
  - intros c i s text Hc H. unfold member.
    destruct c; cbn [step] in H; cbn in Hc; inversion Hc; subst;
      destruct (s !! i) as [r|] eqn:E; try reflexivity; reasons H.
Qed.

Lemma apply_settings_lookup settings current a n :
  settings !! a = Some n -> is_none n = false ->
  apply_settings settings current !! a = Some n.
Proof.
  intros H1 H2. unfold apply_settings.
  apply lookup_union_Some_l. apply map_lookup_filter_Some. auto.
Qed.

Lemma apply_settings_settled settings current :
  _check_room_modified (apply_settings settings current) settings = false.
Proof.
  apply not_true_is_false. intros H.
  apply check_room_modified_iff in H
    as (a & n & o & _ & Hn & Ho & Hne & Hd).
  apply is_none_false in Hne.
  rewrite (apply_settings_lookup _ _ _ _ Hn Hne) in Ho.
  inversion Ho; subst. rewrite py_eq_refl in Hd. discriminate.
Qed.

Lemma step_keeps_detail b c s i :
  match c with Bdk.update_room _ _ => False | _ => True end ->
  detail <$> (snd (step b c s) !! i) = detail <$> (s !! i).
Proof.
  intros Hc. destruct c; try contradiction; cbn [step]; cases; cbn [snd];
    try reflexivity.
  all: match goal with
       | H : _ !! ?j = Some _ |- _ = _ <$> _ !! ?k =>
           destruct (decide (j = k)) as [Heq|Hne];
           [subst; rewrite lookup_insert_eq, H
           |rewrite lookup_insert_ne by assumption]; reflexivity
       end.
Qed.

Lemma step_applies b : applies_settings (step b).
Proof.
  split.
  - intros i a s room. cbn [step].
    destruct (s !! i) as [r|] eqn:E; cbn [fst snd]; [|discriminate].
    destruct (out_of_order r); cbn [fst snd]; [discriminate|].
    destruct (bot_owner r); cbn [fst snd]; [|discriminate].
    intros _. eexists. cbn [step]. rewrite lookup_insert_eq. cbn [fst detail].
    split; [reflexivity|]. cbn [room_attributes]. apply apply_settings_settled.
  - intros c i a s Hc (room & Hr & Hk).
    pose proof (step_keeps_detail b c s i Hc) as Hd.
    exists room. split; [|assumption].
    cbn [step] in Hr |- *.
    destruct (s !! i) as [r|] eqn:E; [|discriminate]. cbn [fst] in Hr.
    destruct (snd (step b c s) !! i) as [r'|]; [|discriminate].
    cbn in Hd. cbn [fst]. congruence.
Qed.

End SmallPodLaws.

(** ** Runs of [update_room] on given responses *)

Ltac run :=
  cbv beta iota zeta delta
    [update_room update_room_try try_catch bind ret raise log call emit
     get_room_info json_loads_body has_message
     _promote_self_and_update_room _add_self_and_update_room
     _add_self_to_room _promote_self_to_owner _remove_self_from_room
     _demote_self_for_room _update_room_exception_handler negb
     pod_state calls logs CSV_STREAM_FIELD_NAMES files].

Lemma update_room_normalises {S}
    (pod : forall c : Bdk.call, S -> result (Bdk.ret c) * S)
    bot_info fuel stream_id settings pre_check :
  stable (_make_b64_id_safe stream_id) ->
  update_room pod bot_info fuel stream_id settings pre_check
  = update_room pod bot_info fuel (_make_b64_id_safe stream_id) settings pre_check.
Proof.
  intros H. destruct fuel; [reflexivity|].
  rewrite !update_room_S. cbv zeta. now rewrite H.
Qed.

Section Runs.

Context {S : Type}.
Variable pod : forall c : Bdk.call, S -> result (Bdk.ret c) * S.
Variable bot_info : UserV2.
Variable i : string.
Variable settings : attrs.
Hypothesis Hi : stable i.

Let uid := user_id bot_info.

Ltac begin w pre_check Hpre :=
  let Hget := fresh "Hget" in
  let Hmod := fresh "Hmod" in
  let current := fresh "current" in
  destruct w as [s_ cs ls fs fl]; unfold fetched, pre_calls in *;
  destruct pre_check;
  [destruct Hpre as (current & Hget & Hmod)|]; cbn [pod_state] in *; subst;
  run; rewrite ?Hi; [rewrite Hget; run; rewrite Hmod; run|].

Lemma run_skip fuel w current s' :
  pod (Bdk.get_room_info i) (pod_state w) = (Ok current, s') ->
  _check_room_modified (room_attributes current) settings = false ->
  exists w',
    update_room pod bot_info (Datatypes.S fuel) i settings true w
      = Some (Ok current, w')
    /\ pod_state w' = s'
    /\ calls w' = calls w ++ [Bdk.get_room_info i]
    /\ last (logs w')
       = Some (entry INFO "[{}] Current room settings match... Skipping..." [AStr i]).
Proof.
  intros Hget Hmod. destruct w as [s_ cs ls fs fl]. cbn [pod_state] in *.
  rewrite update_room_S. run. rewrite ?Hi. rewrite Hget. run. rewrite Hmod. run.
  eexists. split; [reflexivity|]. cbn. repeat split. apply last_snoc.
Qed.

Lemma run_promote_demote fuel pre_check w s0 t1 s1 s2 s3 s4 updated :
  fetched pod i settings pre_check w s0 ->
  pod (Bdk.update_room i settings) s0
    = (Raise (ApiException t1 (Some NOT_ROOM_OWNER_MESSAGE)), s1) ->
  pod (Bdk.promote_user_to_room_owner uid i) s1 = (Ok tt, s2) ->
  pod (Bdk.update_room i settings) s2 = (Ok updated, s3) ->
  pod (Bdk.demote_owner_to_room_participant uid i) s3 = (Ok tt, s4) ->
  exists w',
    update_room pod bot_info (Datatypes.S (Datatypes.S fuel)) i settings pre_check w
      = Some (Ok updated, w')
    /\ pod_state w' = s4
    /\ calls w' = calls w ++ pre_calls i pre_check ++
         [Bdk.update_room i settings;
          Bdk.promote_user_to_room_owner uid i;
          Bdk.update_room i settings;
          Bdk.demote_owner_to_room_participant uid i].
Proof.
  intros Hpre H1 H2 H3 H4. subst uid. begin w pre_check Hpre.
  all: rewrite H1; run; rewrite String.eqb_refl; rewrite H2; run; rewrite ?Hi; rewrite H3; run;
    rewrite H4; run.
  all: eexists; split; [reflexivity|]; split; [reflexivity|];
    cbn; rewrite <- ?app_assoc; reflexivity.
Qed.

Lemma run_promote_only_owner fuel pre_check w s0 t1 t2 s1 s2 s3 s4 updated :
  fetched pod i settings pre_check w s0 ->
  pod (Bdk.update_room i settings) s0
    = (Raise (ApiException t1 (Some NOT_ROOM_OWNER_MESSAGE)), s1) ->
  pod (Bdk.promote_user_to_room_owner uid i) s1 = (Ok tt, s2) ->
  pod (Bdk.update_room i settings) s2 = (Ok updated, s3) ->
  pod (Bdk.demote_owner_to_room_participant uid i) s3
    = (Raise (ApiException t2 (Some NOT_ABLE_TO_DEMOTE_ONLY_OWNER)), s4) ->
  exists w',
    update_room pod bot_info (Datatypes.S (Datatypes.S fuel)) i settings pre_check w
      = Some (Ok updated, w')
    /\ pod_state w' = s4
    /\ last (logs w') = Some (ONLY_OWNER_ENTRY bot_info i)
    /\ calls w' = calls w ++ pre_calls i pre_check ++
         [Bdk.update_room i settings;
          Bdk.promote_user_to_room_owner uid i;
          Bdk.update_room i settings;
          Bdk.demote_owner_to_room_participant uid i].
Proof.
  intros Hpre H1 H2 H3 H4. subst uid. begin w pre_check Hpre.
  all: rewrite H1; run; rewrite String.eqb_refl; rewrite H2; run; rewrite ?Hi; rewrite H3; run;
    rewrite H4; run.
  all: eexists; split; [reflexivity|]; split; [reflexivity|];
    cbn; split; [apply last_snoc|rewrite <- ?app_assoc; reflexivity].
Qed.

Lemma run_join_leave fuel pre_check w s0 t1 t2 s1 s2 s3 s4 s5 s6 updated :
  fetched pod i settings pre_check w s0 ->
  pod (Bdk.update_room i settings) s0
    = (Raise (ApiException t1 (Some NOT_ROOM_OWNER_MESSAGE)), s1) ->
  pod (Bdk.promote_user_to_room_owner uid i) s1
    = (Raise (ApiException t2 (Some (NOT_ROOM_MEMBER_MESSAGE uid))), s2) ->
  pod (Bdk.add_member_to_room uid i) s2 = (Ok tt, s3) ->
  pod (Bdk.promote_user_to_room_owner uid i) s3 = (Ok tt, s4) ->
  pod (Bdk.update_room i settings) s4 = (Ok updated, s5) ->
  pod (Bdk.remove_member_from_room uid i) s5 = (Ok tt, s6) ->
  exists w',
    update_room pod bot_info (Datatypes.S (Datatypes.S fuel)) i settings pre_check w
      = Some (Ok updated, w')
    /\ pod_state w' = s6
    /\ calls w' = calls w ++ pre_calls i pre_check ++
         [Bdk.update_room i settings;
          Bdk.promote_user_to_room_owner uid i;
          Bdk.add_member_to_room uid i;
          Bdk.promote_user_to_room_owner uid i;
          Bdk.update_room i settings;
          Bdk.remove_member_from_room uid i].
Proof.
  intros Hpre H1 H2 H3 H4 H5 H6. subst uid. begin w pre_check Hpre.
  all: rewrite H1; run; rewrite String.eqb_refl; rewrite H2; run; rewrite String.eqb_refl;
    rewrite H3; run; rewrite H4; run; rewrite ?Hi; rewrite H5; run;
    rewrite H6; run.
  all: eexists; split; [reflexivity|]; split; [reflexivity|];
    cbn; rewrite <- ?app_assoc; reflexivity.
Qed.

End Runs.

(** ** The recovery of [update_room] *)

(** C1: on a pod that obeys the laws, and for an identifier whose normal form
    is stable, [update_room] ends, and when it succeeds the bot is a member of
    the room exactly when it was before, and an owner exactly when it was
    before, unless its demotion failed for being the only owner, which is the
    last record logged.  After promotion alone the last call demotes the bot,
    and a demotion refused for the only owner still gives the updated room;
    after the bot has been added the last call removes it. *)
Theorem update_room_restores_relation {S}
    (pod : forall c : Bdk.call, S -> result (Bdk.ret c) * S)
    (bot_info : UserV2) (member owner : S -> string -> bool)
    (stream_id : string) (settings : attrs) :
  lawful pod bot_info member owner ->
  stable (_make_b64_id_safe stream_id) ->
  let i := _make_b64_id_safe stream_id in
  let uid := user_id bot_info in
  (forall fuel pre_check w,
     exists r w',
       update_room pod bot_info (Datatypes.S (Datatypes.S fuel)) stream_id settings
         pre_check w = Some (r, w')
       /\ match r with
          | Ok _ =>
              member (pod_state w') i = member (pod_state w) i
              /\ (owner (pod_state w') i = owner (pod_state w) i
                  \/ owner (pod_state w') i = true
                     /\ last (logs w') = Some (ONLY_OWNER_ENTRY bot_info i))
          | Raise _ => True
          end)
  /\ (forall fuel pre_check w s0 t1 s1 s2 s3 updated,
        fetched pod i settings pre_check w s0 ->
        pod (Bdk.update_room i settings) s0
          = (Raise (ApiException t1 (Some NOT_ROOM_OWNER_MESSAGE)), s1) ->
        pod (Bdk.promote_user_to_room_owner uid i) s1 = (Ok tt, s2) ->
        pod (Bdk.update_room i settings) s2 = (Ok updated, s3) ->
        forall r4 s4,
          pod (Bdk.demote_owner_to_room_participant uid i) s3 = (r4, s4) ->
          r4 = Ok tt
          \/ (exists t2, r4 = Raise (ApiException t2 (Some NOT_ABLE_TO_DEMOTE_ONLY_OWNER))) ->
          exists w',
            update_room pod bot_info (Datatypes.S (Datatypes.S fuel)) stream_id settings
              pre_check w = Some (Ok updated, w')
            /\ pod_state w' = s4
            /\ (r4 = Ok tt \/ last (logs w') = Some (ONLY_OWNER_ENTRY bot_info i))
            /\ calls w' = calls w ++ pre_calls i pre_check ++
                 [Bdk.update_room i settings;
                  Bdk.promote_user_to_room_owner uid i;
                  Bdk.update_room i settings;
                  Bdk.demote_owner_to_room_participant uid i])
  /\ (forall fuel pre_check w s0 t1 t2 s1 s2 s3 s4 s5 s6 updated,
        fetched pod i settings pre_check w s0 ->
        pod (Bdk.update_room i settings) s0
          = (Raise (ApiException t1 (Some NOT_ROOM_OWNER_MESSAGE)), s1) ->
        pod (Bdk.promote_user_to_room_owner uid i) s1
          = (Raise (ApiException t2 (Some (NOT_ROOM_MEMBER_MESSAGE uid))), s2) ->
        pod (Bdk.add_member_to_room uid i) s2 = (Ok tt, s3) ->
        pod (Bdk.promote_user_to_room_owner uid i) s3 = (Ok tt, s4) ->
        pod (Bdk.update_room i settings) s4 = (Ok updated, s5) ->
        pod (Bdk.remove_member_from_room uid i) s5 = (Ok tt, s6) ->
        exists w',
          update_room pod bot_info (Datatypes.S (Datatypes.S fuel)) stream_id settings
            pre_check w = Some (Ok updated, w')
          /\ pod_state w' = s6
          /\ last (calls w') = Some (Bdk.remove_member_from_room uid i)).
Proof.
  intros L Hi i uid. split; [|split].
  - intros fuel pre_check w.
    rewrite update_room_normalises by assumption. fold i.
    destruct (update_room_spec pod bot_info member owner L i settings Hi
                (fun _ => True) (fun _ _ _ => I) (fun _ _ _ _ => I) (fun _ _ _ _ => I)
                (member (pod_state w) i) (owner (pod_state w) i) fuel pre_check w)
      as (r & w' & E & H); [split; reflexivity|].
    exists r, w'. split; [assumption|].
    destruct r as [room|e]; [|exact I].
    destruct H as [_ [[H1 H2]|[[H1 H2] H3]]]; auto.
  - intros fuel pre_check w s0 t1 s1 s2 s3 updated Hpre H1 H2 H3 r4 s4 H4 Hr.
    rewrite update_room_normalises by assumption. fold i.
    destruct Hr as [->|[t2 ->]].
    + destruct (run_promote_demote pod bot_info i settings Hi fuel pre_check w
                  s0 t1 s1 s2 s3 s4 updated Hpre H1 H2 H3 H4) as (w' & E & Hs & Hc).
      exists w'. auto.
    + destruct (run_promote_only_owner pod bot_info i settings Hi fuel pre_check w
                  s0 t1 t2 s1 s2 s3 s4 updated Hpre H1 H2 H3 H4)
        as (w' & E & Hs & Hl & Hc).
      exists w'. auto.
  - intros fuel pre_check w s0 t1 t2 s1 s2 s3 s4 s5 s6 updated Hpre H1 H2 H3 H4 H5 H6.
    rewrite update_room_normalises by assumption. fold i.
    destruct (run_join_leave pod bot_info i settings Hi fuel pre_check w
                s0 t1 t2 s1 s2 s3 s4 s5 s6 updated Hpre H1 H2 H3 H4 H5 H6)
      as (w' & E & Hs & Hc).
    exists w'. repeat split; try assumption.
    rewrite Hc. rewrite !app_assoc.
    change [Bdk.update_room i settings;
            Bdk.promote_user_to_room_owner (user_id bot_info) i;
            Bdk.add_member_to_room (user_id bot_info) i;
            Bdk.promote_user_to_room_owner (user_id bot_info) i;
            Bdk.update_room i settings;
            Bdk.remove_member_from_room (user_id bot_info) i]
      with ([Bdk.update_room i settings;
             Bdk.promote_user_to_room_owner (user_id bot_info) i;
             Bdk.add_member_to_room (user_id bot_info) i;
             Bdk.promote_user_to_room_owner (user_id bot_info) i;
             Bdk.update_room i settings]
            ++ [Bdk.remove_member_from_room (user_id bot_info) i]).
    rewrite app_assoc. apply last_snoc.
Qed.

(** C3: when the update is refused to a bot that is no owner, the promotion
    is refused to a bot that is no member, and the four calls that follow
    succeed, [update_room] makes exactly the calls: update, promote, add,
    promote, update, remove (after the read of the pre-check when there is
    one), and returns the room that the second update gave. *)
Theorem update_room_not_member_call_sequence {S}
    (pod : forall c : Bdk.call, S -> result (Bdk.ret c) * S)
    (bot_info : UserV2) (stream_id : string) (settings : attrs)
    fuel pre_check w s0 t1 t2 s1 s2 s3 s4 s5 s6 updated :
  let i := _make_b64_id_safe stream_id in
  let uid := user_id bot_info in
  stable i ->
  fetched pod i settings pre_check w s0 ->
  pod (Bdk.update_room i settings) s0
    = (Raise (ApiException t1 (Some NOT_ROOM_OWNER_MESSAGE)), s1) ->
  pod (Bdk.promote_user_to_room_owner uid i) s1
    = (Raise (ApiException t2 (Some (NOT_ROOM_MEMBER_MESSAGE uid))), s2) ->
  pod (Bdk.add_member_to_room uid i) s2 = (Ok tt, s3) ->
  pod (Bdk.promote_user_to_room_owner uid i) s3 = (Ok tt, s4) ->
  pod (Bdk.update_room i settings) s4 = (Ok updated, s5) ->
  pod (Bdk.remove_member_from_room uid i) s5 = (Ok tt, s6) ->
  exists w',
    update_room pod bot_info (Datatypes.S (Datatypes.S fuel)) stream_id settings
      pre_check w = Some (Ok updated, w')
    /\ pod_state w' = s6
    /\ calls w' = calls w ++ pre_calls i pre_check ++
         [Bdk.update_room i settings;
          Bdk.promote_user_to_room_owner uid i;
          Bdk.add_member_to_room uid i;
          Bdk.promote_user_to_room_owner uid i;
          Bdk.update_room i settings;
          Bdk.remove_member_from_room uid i].
Proof.
  intros i uid Hi Hpre H1 H2 H3 H4 H5 H6.
  rewrite update_room_normalises by assumption. fold i.
  exact (run_join_leave pod bot_info i settings Hi fuel pre_check w
           s0 t1 t2 s1 s2 s3 s4 s5 s6 updated Hpre H1 H2 H3 H4 H5 H6).
Qed.

(** ** The pre-check *)

(** C5, amended: with [pre_check], [update_room] first reads the room, and
    when [_check_room_modified] is false it returns the state read, having
    made no other call.  On a pod that obeys the laws and applies the settings
    it accepts, a call of [update_room] that has succeeded is followed, for
    the same settings and with [pre_check], by a call that only reads and
    returns the state read. *)
Theorem update_room_pre_check_skips {S}
    (pod : forall c : Bdk.call, S -> result (Bdk.ret c) * S)
    (bot_info : UserV2) (stream_id : string) (settings : attrs) :
  stable (_make_b64_id_safe stream_id) ->
  let i := _make_b64_id_safe stream_id in
  (forall fuel w current s',
     pod (Bdk.get_room_info i) (pod_state w) = (Ok current, s') ->
     _check_room_modified (room_attributes current) settings = false ->
     exists w',
       update_room pod bot_info (Datatypes.S fuel) stream_id settings true w
         = Some (Ok current, w')
       /\ pod_state w' = s'
       /\ calls w' = calls w ++ [Bdk.get_room_info i]
       /\ last (logs w')
          = Some (entry INFO "[{}] Current room settings match... Skipping..." [AStr i]))
  /\ (forall member owner,
        lawful pod bot_info member owner -> applies_settings pod ->
        forall fuel pre_check w updated w1,
          update_room pod bot_info (Datatypes.S (Datatypes.S fuel)) stream_id settings
            pre_check w = Some (Ok updated, w1) ->
          exists current w2,
            update_room pod bot_info (Datatypes.S (Datatypes.S fuel)) stream_id settings
              true w1 = Some (Ok current, w2)
            /\ fst (pod (Bdk.get_room_info i) (pod_state w1)) = Ok current
            /\ calls w2 = calls w1 ++ [Bdk.get_room_info i]
            /\ filter (fun c => Bdk.is_write c = true) (calls w2)
               = filter (fun c => Bdk.is_write c = true) (calls w1)
            /\ last (logs w2)
               = Some (entry INFO "[{}] Current room settings match... Skipping..."
                         [AStr i])).
Proof.
  intros Hi i. split.
  - intros fuel w current s' Hget Hmod.
    rewrite update_room_normalises by assumption. fold i.
    exact (run_skip pod bot_info i settings Hi fuel w current s' Hget Hmod).
  - intros member owner L [Happ Hkept] fuel pre_check w updated w1 H.
    rewrite update_room_normalises in H |- * by assumption. fold i in H |- *.
    destruct (update_room_spec pod bot_info member owner L i settings Hi
                (settled pod i settings)
                (fun s room => Happ i settings s room)
                (fun c s Hc => Hkept c i settings s Hc)
                (fun s room Hr Hm => ex_intro _ room (conj Hr Hm))
                (member (pod_state w) i) (owner (pod_state w) i) fuel pre_check w)
      as (r & w' & E & Hpost); [split; reflexivity|].
    rewrite H in E. inversion E; subst r w'. clear E.
    destruct Hpost as [(current & Hget & Hmod) _].
    destruct (pod (Bdk.get_room_info i) (pod_state w1)) as [r s'] eqn:Eg.
    cbn [fst] in Hget. subst r.
    destruct (run_skip pod bot_info i settings Hi (Datatypes.S fuel) w1 current s'
                Eg Hmod) as (w2 & E2 & Hs & Hc & Hl).
    exists current, w2. repeat split; try assumption.
    rewrite Hc, filter_app. cbn. apply app_nil_r.
Qed.

(** ** The bulk driver *)

Section Bulk.

Context {S : Type}.
Variable pod : forall c : Bdk.call, S -> result (Bdk.ret c) * S.
Variable bot_info : UserV2.
Variable fuel : nat.
Variable settings : attrs.
Variable pre_check : bool.



Lemma update_rooms_loop_cons stream streams results w :
  update_rooms_loop pod bot_info fuel (stream :: streams) settings pre_check results w
  = match one_room pod bot_info fuel settings pre_check stream w with
    | Some (Ok room, w1) =>
        update_rooms_loop pod bot_info fuel streams settings pre_check
          (results ++ [room]) w1
    | Some (Raise _, w1) =>
        update_rooms_loop pod bot_info fuel streams settings pre_check results
          (logged (entry ERROR "[{}] There was an error updating room."
                     [AStr (_make_b64_id_safe (id stream))]) w1)
    | None => None
    end.
Proof.
  cbn [update_rooms_loop]. unfold one_room, bind, try_catch, log, ret, logged.
  destruct (update_room pod bot_info fuel _ settings pre_check _) as [[[room|e] w1]|];
    reflexivity.
Qed.

Lemma update_rooms_loop_results streams : forall results w,
  update_rooms_loop pod bot_info fuel streams settings pre_check results w
  = map_rooms (app results)
      (update_rooms_loop pod bot_info fuel streams settings pre_check [] w).
Proof.
  induction streams as [|stream streams IH]; intros results w.
  - cbn. now rewrite app_nil_r.
  - rewrite !update_rooms_loop_cons.
    destruct (one_room pod bot_info fuel settings pre_check stream w) as [[[room|e] w1]|]; [| |reflexivity].
    + rewrite (IH (results ++ [room])), (IH ([] ++ [room])).
      destruct (update_rooms_loop pod bot_info fuel streams settings pre_check [] w1)
        as [[[rooms|e] w2]|]; cbn; [|reflexivity|reflexivity].
      now rewrite <- app_assoc.
    + apply IH.
Qed.

Lemma update_rooms_loop_no_raise streams : forall results w e w',
  update_rooms_loop pod bot_info fuel streams settings pre_check results w
  <> Some (Raise e, w').
Proof.
  induction streams as [|stream streams IH]; intros results w e w'.
  - cbn. discriminate.
  - rewrite update_rooms_loop_cons.
    destruct (one_room pod bot_info fuel settings pre_check stream w) as [[[room|e1] w1]|]; [apply IH|apply IH|discriminate].
Qed.

Lemma update_rooms_cons stream streams w :
  update_rooms pod bot_info fuel (stream :: streams) settings pre_check w
  = match one_room pod bot_info fuel settings pre_check stream w with
    | Some (Ok room, w1) =>
        map_rooms (cons room)
          (update_rooms pod bot_info fuel streams settings pre_check w1)
    | Some (Raise _, w1) =>
        update_rooms pod bot_info fuel streams settings pre_check
          (logged (entry ERROR "[{}] There was an error updating room."
                     [AStr (_make_b64_id_safe (id stream))]) w1)
    | None => None
    end.
Proof.
  unfold update_rooms. rewrite update_rooms_loop_cons.
  destruct (one_room pod bot_info fuel settings pre_check stream w) as [[[room|e] w1]|]; try reflexivity.
  apply update_rooms_loop_results.
Qed.

End Bulk.

Lemma update_rooms_total {S}
    (pod : forall c : Bdk.call, S -> result (Bdk.ret c) * S)
    bot_info member owner fuel settings pre_check :
  lawful pod bot_info member owner ->
  forall streams w,
    Forall (fun stream => stable (_make_b64_id_safe (id stream))) streams ->
    exists rooms w',
      update_rooms pod bot_info (Datatypes.S (Datatypes.S fuel)) streams settings
        pre_check w = Some (Ok rooms, w')
      /\ length rooms <= length streams.
Proof.
  intros L streams. induction streams as [|stream streams IH]; intros w Hst.
  - exists [], w. split; [reflexivity|]. cbn. lia.
  - inversion Hst as [|? ? Hi Hrest]; subst.
    rewrite update_rooms_cons. unfold one_room.
    match goal with
    | |- context [update_room _ _ _ ?i _ _ ?w0] =>
        destruct (update_room_spec pod bot_info member owner L i settings Hi
                    (fun _ => True) (fun _ _ _ => I) (fun _ _ _ _ => I)
                    (fun _ _ _ _ => I)
                    (member (pod_state w0) i) (owner (pod_state w0) i) fuel pre_check w0)
          as (r & w1 & E & _); [split; reflexivity|]
    end.
    rewrite E. destruct r as [room|e].
    + destruct (IH w1 Hrest) as (rooms & w' & E' & Hlen).
      rewrite E'. exists (room :: rooms), w'. split; [reflexivity|]. cbn. lia.
    + destruct (IH (logged (entry ERROR "[{}] There was an error updating room."
                              [AStr (_make_b64_id_safe (id stream))]) w1) Hrest)
        as (rooms & w' & E' & Hlen).
      exists rooms, w'. split; [assumption|]. cbn. lia.
Qed.

(** C2, amended: [update_rooms] never raises; on no room it returns the empty
    list; on a first room and others it returns the updated first room
    followed by the results for the others when the update of the first room
    succeeds, and the results for the others alone, after an error record in
    the log, when it raises.  On a pod that obeys the laws it ends, with at
    most one result per room. *)
Theorem update_rooms_keeps_successes {S}
    (pod : forall c : Bdk.call, S -> result (Bdk.ret c) * S)
    (bot_info : UserV2) (settings : attrs) (pre_check : bool) :
  (forall fuel streams w e w',
     update_rooms pod bot_info fuel streams settings pre_check w <> Some (Raise e, w'))
  /\ (forall fuel w,
        update_rooms pod bot_info fuel [] settings pre_check w = Some (Ok [], w))
  /\ (forall fuel stream streams w,
        update_rooms pod bot_info fuel (stream :: streams) settings pre_check w
        = match one_room pod bot_info fuel settings pre_check stream w with
          | Some (Ok room, w1) =>
              map_rooms (cons room)
                (update_rooms pod bot_info fuel streams settings pre_check w1)
          | Some (Raise _, w1) =>
              update_rooms pod bot_info fuel streams settings pre_check
                (logged (entry ERROR "[{}] There was an error updating room."
                           [AStr (_make_b64_id_safe (id stream))]) w1)
          | None => None
          end)
  /\ (forall member owner fuel streams w,
        lawful pod bot_info member owner ->
        Forall (fun stream => stable (_make_b64_id_safe (id stream))) streams ->
        exists rooms w',
          update_rooms pod bot_info (Datatypes.S (Datatypes.S fuel)) streams settings
            pre_check w = Some (Ok rooms, w')
          /\ length rooms <= length streams).
Proof.
  repeat split.
  - intros fuel streams w e w'. apply update_rooms_loop_no_raise.
  - intros fuel stream streams w. apply update_rooms_cons.
  - intros member owner fuel streams w L Hst.
    now apply (update_rooms_total pod bot_info member owner).
Qed.

(** ** What the engine leaves alone *)


Section Keeps.

Context {S : Type}.
Variable pod : forall c : Bdk.call, S -> result (Bdk.ret c) * S.
Variable bot_info : UserV2.
Variable I : World S -> Prop.
Hypothesis HI : files_only I.

Lemma keeps_ret {A} (a : A) : keeps I (ret a).
Proof. intros w r w' Hw E. inversion E; subst. assumption. Qed.

Lemma keeps_raise {A} e : keeps I (raise (A := A) e).
Proof. intros w r w' Hw E. inversion E; subst. assumption. Qed.

Lemma keeps_diverge {A} : keeps I (diverge (A := A)).
Proof. intros w r w' Hw E. discriminate. Qed.

Lemma keeps_bind {A B} (m : M S A) (k : A -> M S B) :
  keeps I m -> (forall a, keeps I (k a)) -> keeps I (bind m k).
Proof.
  intros Hm Hk w r w' Hw E. unfold bind in E.
  destruct (m w) as [[[a|e] w1]|] eqn:Em; [| |discriminate].
  - eapply Hk; [|exact E]. eapply Hm; eauto.
  - inversion E; subst. eapply Hm; eauto.
Qed.

Lemma keeps_try {A} (m : M S A) (h : exn -> M S A) :
  keeps I m -> (forall e, keeps I (h e)) -> keeps I (try_catch m h).
Proof.
  intros Hm Hh w r w' Hw E. unfold try_catch in E.
  destruct (m w) as [[[a|e] w1]|] eqn:Em; [| |discriminate].
  - inversion E; subst. eapply Hm; eauto.
  - eapply Hh; [|exact E]. eapply Hm; eauto.
Qed.

Lemma keeps_log l fmt args : keeps I (log l fmt args).
Proof.
  intros w r w' Hw E. inversion E; subst. revert Hw. apply HI; reflexivity.
Qed.

Lemma keeps_emit es : keeps I (emit es).
Proof.
  intros w r w' Hw E. inversion E; subst. revert Hw. apply HI; reflexivity.
Qed.

Lemma keeps_call c : keeps I (call pod c).
Proof.
  intros w r w' Hw E. unfold call in E.
  destruct (pod c (pod_state w)) as [r0 s]. inversion E; subst.
  revert Hw. apply HI; reflexivity.
Qed.

Ltac keeps_step :=
  first
    [ apply keeps_ret | apply keeps_raise | apply keeps_diverge
    | apply keeps_log | apply keeps_emit | apply keeps_call
    | apply keeps_bind; [|intros ?] | apply keeps_try; [|intros ?]
    | assumption
    | match goal with
      | |- keeps _ (if ?b then _ else _) => destruct b
      | |- keeps _ (match ?x with _ => _ end) => destruct x
      end ].

Lemma keeps_json_loads_body e : keeps I (json_loads_body e).
Proof. unfold json_loads_body. repeat keeps_step. Qed.

Lemma keeps_get_room_info stream_id : keeps I (get_room_info pod stream_id).
Proof. unfold get_room_info. repeat keeps_step. Qed.

Lemma keeps_handler {A} stream_id e :
  keeps I (_update_room_exception_handler (A := A) stream_id e).
Proof. unfold _update_room_exception_handler. repeat keeps_step. Qed.

Lemma keeps_update_room fuel : forall stream_id settings pre_check,
  keeps I (update_room pod bot_info fuel stream_id settings pre_check).
Proof.
  induction fuel as [|fuel IH]; intros stream_id settings pre_check.
  - apply keeps_diverge.
  - rewrite update_room_S. cbv zeta.
    unfold update_room_try, json_loads_body, _promote_self_and_update_room,
      _add_self_and_update_room, _add_self_to_room, _promote_self_to_owner,
      _remove_self_from_room, _demote_self_for_room.
    repeat first [apply IH | apply keeps_get_room_info | apply keeps_handler
                 | apply keeps_json_loads_body | keeps_step].
Qed.

End Keeps.


Section Csv.

Context {S : Type}.
Variable pod : forall c : Bdk.call, S -> result (Bdk.ret c) * S.
Variable bot_info : UserV2.


Lemma keeps_write_line out F line : keeps (headed (S := S) out F) (write_line out line).
Proof.
  intros w r w' [H1 [lines H2]] E. inversion E as [[Hr Hw]]. clear E Hr Hw.
  split; [exact H1|].
  exists (lines ++ [line]). cbn [files]. rewrite lookup_insert_eq, H2. reflexivity.
Qed.

Ltac keeps_step I HI :=
  first
    [ apply keeps_ret | apply keeps_raise | apply keeps_diverge
    | apply (keeps_log I HI) | apply (keeps_emit I HI) | apply (keeps_call pod I HI)
    | apply (keeps_get_room_info pod I HI)
    | apply (keeps_update_room pod bot_info I HI)
    | apply keeps_write_line
    | apply keeps_bind; [|intros ?] | apply keeps_try; [|intros ?]
    | match goal with
      | |- keeps _ (if ?b then _ else _) => destruct b
      | |- keeps _ (match ?x with _ => _ end) => destruct x
      | |- keeps _ (let '(_, _) := ?x in _) => destruct x
      end ].






End Csv.






Import SmallPod SmallPodLaws Examples.

Lemma update_room_restores_relation_witness :
  exists r w',
    update_room (step 7) bot 2 "R" want true (start outsider) = Some (r, w')
    /\ match r with
       | Ok _ =>
           member (pod_state w') "R" = member outsider "R"
           /\ (owner (pod_state w') "R" = owner outsider "R"
               \/ owner (pod_state w') "R" = true
                  /\ last (logs w') = Some (ONLY_OWNER_ENTRY bot "R"))
       | Raise _ => True
       end.
Proof.
  exact (proj1 (update_room_restores_relation (step 7) bot member owner "R" want
                  (step_lawful bot) eq_refl) 0 true (start outsider)).
Defined.

Lemma update_room_not_member_call_sequence_witness :
  exists w',
    update_room (step 7) bot 2 "R" want true (start outsider)
      = Some (Ok updated_R, w')
    /\ pod_state w' = outsider_after
    /\ calls w' = [Bdk.get_room_info "R";
                   Bdk.update_room "R" want;
                   Bdk.promote_user_to_room_owner 7 "R";
                   Bdk.add_member_to_room 7 "R";
                   Bdk.promote_user_to_room_owner 7 "R";
                   Bdk.update_room "R" want;
                   Bdk.remove_member_from_room 7 "R"].
Proof.
  eapply (update_room_not_member_call_sequence (step 7) bot "R" want 0 true
            (start outsider)).
  - reflexivity.
  - eexists. split; reflexivity.
  - reflexivity.
  - reflexivity.
  - reflexivity.
  - reflexivity.
  - vm_compute. reflexivity.
  - vm_compute. reflexivity.
Defined.

Lemma update_room_pre_check_skips_witness :
  exists w',
    update_room (step 7) bot 1 "A" (<["members_can_invite" := VBool true]> ∅) true
      (start three) = Some (Ok (detail (a_room "A" true true 1 false)), w')
    /\ pod_state w' = three
    /\ calls w' = [Bdk.get_room_info "A"]
    /\ last (logs w')
       = Some (entry INFO "[{}] Current room settings match... Skipping..." [AStr "A"]).
Proof.
  apply (proj1 (update_room_pre_check_skips (step 7) bot "A"
                  (<["members_can_invite" := VBool true]> ∅) eq_refl)
           0 (start three)).
  - vm_compute. reflexivity.
  - vm_compute. reflexivity.
Defined.

(** C5 fails as stated: on the room B, whose updates are out of order, two
    calls of [update_room] with the pre-check both raise and make two writes;
    on the room R, which the bot is not in, the first of two calls alone makes
    six writes. *)
Lemma update_room_twice_writes_more_than_once :
  match update_room (step 7) bot 2 "B" want true (start three) with
  | Some (Raise _, w1) =>
      match update_room (step 7) bot 2 "B" want true w1 with
      | Some (Raise _, w2) => List.filter Bdk.is_write (calls w2)
      | _ => []
      end
  | _ => []
  end = [Bdk.update_room "B" want; Bdk.update_room "B" want]
  /\ match update_room (step 7) bot 2 "R" want true (start outsider) with
     | Some (Ok _, w1) =>
         match update_room (step 7) bot 2 "R" want true w1 with
         | Some (Ok _, w2) => length (List.filter Bdk.is_write (calls w2))
         | _ => 0
         end
     | _ => 0
     end = 6.
Proof. split; vm_compute; reflexivity. Qed.

Lemma update_rooms_keeps_successes_witness :
  exists rooms w',
    update_rooms (step 7) bot 2 [stream "A"; stream "B"; stream "C"] want true
      (start three) = Some (Ok rooms, w')
    /\ length rooms <= 3.
Proof.
  apply (proj2 (proj2 (proj2 (update_rooms_keeps_successes (step 7) bot want true)))
           member owner 0 [stream "A"; stream "B"; stream "C"] (start three)
           (step_lawful bot)).
  repeat constructor.
Defined.

(** C2 fails as stated: for the rooms A, B and C, the update of B raising,
    [update_rooms] returns two results, those of A and of C. *)
Lemma update_rooms_drops_failed_room :
  match update_rooms (step 7) bot 2 [stream "A"; stream "B"; stream "C"] want true
          (start three) with
  | Some (Ok rooms, _) =>
      List.map (fun room => room_attributes room !! "name") rooms
  | _ => []
  end = [Some (VStr "A"); Some (VStr "C")].
Proof. vm_compute. reflexivity. Qed.






(** * Further properties *)

(** ** More on room identifiers *)

Lemma has_char_map a f s :
  (forall c, Ascii.eqb (f c) a = false) -> PyStr.has_char a (PyStr.map f s) = false.
Proof. intros H. induction s as [|c r IH]; simpl; [reflexivity|]. now rewrite H. Qed.

Lemma has_char_rstrip_by a p s :
  PyStr.has_char a s = false -> PyStr.has_char a (PyStr.rstrip_by p s) = false.
Proof.
  induction s as [|c r IH]; simpl; [reflexivity|].
  intros H. apply orb_false_iff in H as [H1 H2]. specialize (IH H2).
  destruct (PyStr.rstrip_by p r) eqn:E.
  - destruct (p c); simpl; [reflexivity|]. now rewrite H1.
  - simpl in *. now rewrite H1, IH.
Qed.

Lemma last_rstrip_by p s c :
  PyStr.last (PyStr.rstrip_by p s) = Some c -> p c = false.
Proof.
  induction s as [|c0 r IH]; simpl; [discriminate|].
  destruct (PyStr.rstrip_by p r) as [|c1 r1] eqn:E.
  - destruct (p c0) eqn:Ep; simpl; [discriminate|]. intros H. inversion H; subst. assumption.
  - intros H. apply IH. exact H.
Qed.

Lemma url_safe_char_plus c : Ascii.eqb (url_safe_char c) "+" = false.
Proof.
  unfold url_safe_char.
  destruct (Ascii.eqb c "+") eqn:E1; [reflexivity|].
  destruct (Ascii.eqb c "/") eqn:E2; [reflexivity|]. exact E1.
Qed.

Lemma url_safe_char_slash c : Ascii.eqb (url_safe_char c) "/" = false.
Proof.
  unfold url_safe_char.
  destruct (Ascii.eqb c "+") eqn:E1; [reflexivity|].
  destruct (Ascii.eqb c "/") eqn:E2; [reflexivity|]. exact E2.
Qed.

(** X1: the normal form of an identifier holds no [+] and no [/], does not
    end in white space, and is not longer than the identifier. *)
Theorem make_b64_id_safe_clean (id : string) :
  PyStr.has_char "+" (_make_b64_id_safe id) = false
  /\ PyStr.has_char "/" (_make_b64_id_safe id) = false
  /\ (forall c, PyStr.last (_make_b64_id_safe id) = Some c -> PyStr.isspace c = false)
  /\ String.length (_make_b64_id_safe id) <= String.length id.
Proof.
  rewrite make_b64_id_safe_unfold. unfold PyStr.rstrip, PyStr.rstrip_char.
  repeat split.
  - apply has_char_rstrip_by, has_char_rstrip_by, has_char_map, url_safe_char_plus.
  - apply has_char_rstrip_by, has_char_rstrip_by, has_char_map, url_safe_char_slash.
  - intros c. apply last_rstrip_by.
  - assert (Hr : forall p s, String.length (PyStr.rstrip_by p s) <= String.length s).
    { intros p s. induction s as [|c r IH]; simpl; [lia|].
      destruct (PyStr.rstrip_by p r); [destruct (p c)|]; simpl in *; lia. }
    assert (Hm : forall f s, String.length (PyStr.map f s) = String.length s).
    { intros f s. induction s; simpl; congruence. }
    etransitivity; [apply Hr|]. etransitivity; [apply Hr|]. now rewrite Hm.
Qed.

Lemma rstrip_by_length p s :
  String.length (PyStr.rstrip_by p s) <= String.length s.
Proof.
  induction s as [|c r IH]; simpl; [lia|].
  destruct (PyStr.rstrip_by p r); [destruct (p c)|]; simpl in *; lia.
Qed.

Lemma rstrip_by_same_length p s :
  String.length (PyStr.rstrip_by p s) = String.length s -> PyStr.rstrip_by p s = s.
Proof.
  induction s as [|c r IH]; simpl; [reflexivity|].
  pose proof (rstrip_by_length p r) as Hl.
  destruct (PyStr.rstrip_by p r) as [|c1 r1] eqn:E.
  - destruct (p c); simpl; intros H.
    + discriminate.
    + f_equal. apply IH. simpl in *. lia.
  - simpl in *. intros H. f_equal. apply IH. lia.
Qed.

(** X2: normalising an identifier a second time changes nothing exactly
    when its normal form does not end in [=]. *)
Theorem make_b64_id_safe_idempotent_iff (id : string) :
  _make_b64_id_safe (_make_b64_id_safe id) = _make_b64_id_safe id
  <-> PyStr.rstrip_char "=" (_make_b64_id_safe id) = _make_b64_id_safe id.
Proof.
  split; [|apply make_b64_id_safe_stable].
  intros H. set (r := _make_b64_id_safe id) in *.
  assert (Hm : PyStr.map url_safe_char r = r).
  { subst r. rewrite (make_b64_id_safe_unfold id). unfold PyStr.rstrip, PyStr.rstrip_char.
    rewrite <- !rstrip_by_map.
    - rewrite pystr_map_map. f_equal. f_equal. apply pystr_map_ext, url_safe_char_idem.
    - apply url_safe_char_eq.
    - apply url_safe_char_space. }
  rewrite (make_b64_id_safe_unfold r), Hm in H.
  unfold PyStr.rstrip, PyStr.rstrip_char in *.
  apply rstrip_by_same_length.
  pose proof (rstrip_by_length PyStr.isspace
                (PyStr.rstrip_by (fun c => Ascii.eqb c "=") r)) as H1.
  pose proof (rstrip_by_length (fun c => Ascii.eqb c "=") r) as H2.
  rewrite H in H1. lia.
Qed.

(** ** More on the booleans of the CSV *)

Lemma lower_char_idem c : PyStr.lower_char (PyStr.lower_char c) = PyStr.lower_char c.
Proof. destruct c as [[] [] [] [] [] [] [] []]; reflexivity. Qed.

Lemma lower_idem s : PyStr.lower (PyStr.lower s) = PyStr.lower s.
Proof.
  unfold PyStr.lower. induction s as [|c r IH]; simpl; [reflexivity|].
  now rewrite lower_char_idem, IH.
Qed.

(** X3: [_string_to_bool] does not look at the case of its argument, and
    reads back what [_bool_to_string] writes. *)
Theorem string_to_bool_ignores_case :
  (forall val, _string_to_bool (PyStr.lower val) = _string_to_bool val)
  /\ (forall b, _string_to_bool (_bool_to_string b) = Ok b).
Proof.
  split.
  - intros val. unfold _string_to_bool. now rewrite lower_idem.
  - intros []; reflexivity.
Qed.

(** ** More on the rows of the export *)

(** X4: the row of a room has the columns of the header, in the order of
    the header, so that [writerow] writes its cells as they stand; no cell is
    [None] or a boolean. *)
Theorem room_details_to_csv_dict_columns (room : V3RoomDetail) (flag : bool) :
  Dict.keys (_room_details_to_csv_dict room flag)
    = CSV_STREAM_FIELD_NAMES_init ++ extra_columns flag
  /\ List.map (fun key => default (VStr "") (Dict.get key (_room_details_to_csv_dict room flag)))
       (CSV_STREAM_FIELD_NAMES_init ++ extra_columns flag)
     = List.map snd (_room_details_to_csv_dict room flag)
  /\ Forall (fun kv => snd kv <> VNone /\ forall b, snd kv <> VBool b)
       (_room_details_to_csv_dict room flag).
Proof.
  assert (Hcell : forall a, csv_cell room a <> VNone /\ forall b, csv_cell room a <> VBool b).
  { intros a. unfold csv_cell.
    destruct (room_system_info room !! a) as [[]|];
      [| | | |destruct (room_attributes room !! a) as [[]|]]; split; try intros ?; discriminate. }
  destruct flag; (split; [reflexivity|split; [reflexivity|]]); repeat constructor;
    apply Hcell.
Qed.

(** ** More on the mapping of CSV rows *)

Lemma parse_row_known sid items : forall acc,
  parse_row sid items acc = parse_row sid (List.filter known_column items) acc.
Proof.
  induction items as [|[attribute cell] rest IH]; intros acc; [reflexivity|].
  cbn [List.filter]. unfold known_column at 1, Dict.mem. cbn [fst].
  rewrite parse_row_cons.
  destruct (Dict.get attribute CSV_ROOM_TO_ROOM_ATTRIBUTES_MAP) as [room_map|] eqn:E.
  - rewrite parse_row_cons, E.
    destruct (parse_cell sid attribute cell room_map acc) as [logs [acc'|e]];
      [|reflexivity].
    now rewrite IH.
  - apply IH.
Qed.

Lemma dict_get_app {A} k (d d' : Dict.t A) :
  Dict.mem k d = true -> Dict.get k (d ++ d') = Dict.get k d.
Proof.
  unfold Dict.mem. induction d as [|[k' v] r IH]; simpl; [discriminate|].
  destruct (String.eqb k k'); [reflexivity|]. exact IH.
Qed.

(** X5: columns that are not in [CSV_ROOM_TO_ROOM_ATTRIBUTES_MAP], such as
    [status], [reason] and the non-modifiable ones of an export, do not change
    what a row is parsed into, nor what is logged. *)
Theorem unknown_columns_are_ignored (room_row extra : Dict.t value) :
  Dict.mem "streamId" room_row = true ->
  Forall (fun kv => known_column kv = false) extra ->
  _csv_room_settings_to_v3_room_attributes (room_row ++ extra)
  = _csv_room_settings_to_v3_room_attributes room_row.
Proof.
  intros Hid Hex. unfold _csv_room_settings_to_v3_room_attributes.
  rewrite dict_get_app by assumption.
  destruct (Dict.get "streamId" room_row) as [[]|]; try reflexivity.
  rewrite parse_row_known, (parse_row_known _ room_row).
  rewrite List.filter_app.
  replace (List.filter known_column extra) with (@nil (string * value)).
  - now rewrite app_nil_r.
  - symmetry. induction Hex as [|kv l Hkv _ IH]; [reflexivity|].
    cbn [List.filter]. now rewrite Hkv.
Qed.

Lemma unknown_columns_are_ignored_witness :
  _csv_room_settings_to_v3_room_attributes
    ([("streamId", VStr "abc"); ("discoverable", VStr "yes")]
     ++ [("status", VStr "SUCCESS"); ("reason", VStr ""); ("public (X)", VStr "true")])
  = _csv_room_settings_to_v3_room_attributes
      [("streamId", VStr "abc"); ("discoverable", VStr "yes")].
Proof.
  apply unknown_columns_are_ignored; [reflexivity|].
  repeat constructor.
Defined.

(** An invariant of the attributes that a row sets. *)
Lemma parse_row_invariant (P : attrs -> Prop) sid items :
  (forall attribute cell name type acc logs acc',
     In (attribute, cell) items ->
     Dict.get attribute CSV_ROOM_TO_ROOM_ATTRIBUTES_MAP = Some (name, type) ->
     parse_cell sid attribute cell (name, type) acc = (logs, Ok acc') ->
     P acc -> P acc') ->
  forall acc, P acc ->
    match snd (parse_row sid items acc) with
    | Ok room_attributes => P room_attributes
    | Raise _ => True
    end.
Proof.
  induction items as [|[attribute cell] rest IH]; intros Hstep acc Hacc; [exact Hacc|].
  rewrite parse_row_cons.
  assert (Hrest : forall acc0, P acc0 ->
            match snd (parse_row sid rest acc0) with
            | Ok room_attributes => P room_attributes
            | Raise _ => True
            end).
  { apply IH. intros a c n t acc0 l acc1 Hin. apply Hstep. now right. }
  destruct (Dict.get attribute CSV_ROOM_TO_ROOM_ATTRIBUTES_MAP) as [[name type]|] eqn:Hmap;
    [|now apply Hrest].
  destruct (parse_cell sid attribute cell (name, type) acc) as [logs [acc'|e]] eqn:Hcell;
    [|exact I].
  specialize (Hrest acc' (Hstep _ _ _ _ _ _ _ (or_introl eq_refl) Hmap Hcell Hacc)).
  now destruct (parse_row sid rest acc').
Qed.

Lemma map_entries attribute name type :
  Dict.get attribute CSV_ROOM_TO_ROOM_ATTRIBUTES_MAP = Some (name, type) ->
  In (attribute, name, type)
    [("name", "name", "string*"); ("description", "description", "string");
     ("membersCanInvite", "members_can_invite", "bool");
     ("discoverable", "discoverable", "bool");
     ("copyProtected", "copy_protected", "bool+");
     ("viewHistory", "view_history", "bool");
     ("pinnedMessageId", "pinned_message_id", "string_b64")].
Proof.
  unfold CSV_ROOM_TO_ROOM_ATTRIBUTES_MAP. cbn [Dict.get].
  repeat match goal with
         | |- context [String.eqb attribute ?k] =>
             destruct (String.eqb attribute k) eqn:?
         end; intros H; inversion H; subst;
    match goal with
    | E : String.eqb _ _ = true |- _ => apply String.eqb_eq in E; subst
    end; cbn; tauto.
Qed.




Lemma parse_cell_pinned room_row sid attribute cell name type acc logs acc' :
  In (attribute, cell) room_row ->
  Dict.get attribute CSV_ROOM_TO_ROOM_ATTRIBUTES_MAP = Some (name, type) ->
  parse_cell sid attribute cell (name, type) acc = (logs, Ok acc') ->
  pinned_as_typed room_row acc -> pinned_as_typed room_row acc'.
Proof.
  intros Hin Hmap Hcell Hacc. apply map_entries in Hmap.
  unfold parse_cell in Hcell. destruct cell as [| |raw|]; try discriminate.
  cbn in Hmap.
  repeat (destruct Hmap as [Hmap|Hmap]; [inversion Hmap; subst; clear Hmap|]);
    try contradiction.
  all: cbn [PyStr.endswith PyStr.startswith PyStr.contains String.prefix String.eqb
            Ascii.eqb Bool.eqb orb andb] in Hcell.
  all: destruct (cell_text raw) as [val|] eqn:Et; cbn [is_empty_str] in Hcell.
  all: try (inversion Hcell; subst; exact Hacc).
  all: try (destruct (_string_to_bool val) as [b|e]; [|discriminate]).
  all: try (destruct (String.eqb val "") eqn:Ev).
  all: inversion Hcell; subst; try exact Hacc.
  all: intros v; try (rewrite lookup_insert_ne by discriminate; apply Hacc).
  all: rewrite lookup_insert_eq; intros H; inversion H; subst; eauto.
Qed.

(** X7: the pinned message parsed from a row is the text of a
    [pinnedMessageId] cell as typed, stripped: its type [string_b64] does not
    hold [_b64_], and [_make_b64_id_safe] is not applied to it. *)
Theorem pinned_message_id_is_not_encoded :
  (forall room_row,
     match snd (_csv_room_settings_to_v3_room_attributes room_row) with
     | Ok room_attributes => pinned_as_typed room_row room_attributes
     | Raise _ => True
     end)
  /\ snd (_csv_room_settings_to_v3_room_attributes
            [("streamId", VStr "abc"); ("pinnedMessageId", VStr " a+b/c= ")])
     = Ok (<["pinned_message_id" := VStr "a+b/c="]> ∅)
  /\ _make_b64_id_safe "a+b/c=" = "a-b_c".
Proof.
  split; [|split; [vm_compute; reflexivity|reflexivity]].
  intros room_row. unfold _csv_room_settings_to_v3_room_attributes.
  destruct (Dict.get "streamId" room_row) as [[]|]; cbn [snd]; try exact I.
  apply parse_row_invariant.
  - intros attribute cell name type acc logs acc'. apply parse_cell_pinned.
  - intros v. rewrite lookup_empty. discriminate.
Qed.

(** ** What [update_room] raises *)

Section FirstError.

Context {S : Type}.
Variable pod : forall c : Bdk.call, S -> result (Bdk.ret c) * S.
Variable bot_info : UserV2.






End FirstError.

(** ** The calls of [update_room] *)

Section CallsKept.

Context {S : Type}.
Variable pod : forall c : Bdk.call, S -> result (Bdk.ret c) * S.
Variable I : World S -> Prop.
Hypothesis HI : calls_only I.

Lemma kept_ret {A} (a : A) : keeps I (ret a).
Proof. intros w r w' Hw E. inversion E; subst. assumption. Qed.

Lemma kept_raise {A} e : keeps I (raise (A := A) e).
Proof. intros w r w' Hw E. inversion E; subst. assumption. Qed.

Lemma kept_diverge {A} : keeps I (diverge (A := A)).
Proof. intros w r w' Hw E. discriminate. Qed.

Lemma kept_bind {A B} (m : M S A) (k : A -> M S B) :
  keeps I m -> (forall a, keeps I (k a)) -> keeps I (bind m k).
Proof.
  intros Hm Hk w r w' Hw E. unfold bind in E.
  destruct (m w) as [[[a|e] w1]|] eqn:Em; [| |discriminate].
  - eapply Hk; [|exact E]. eapply Hm; eauto.
  - inversion E; subst. eapply Hm; eauto.
Qed.

Lemma kept_try {A} (m : M S A) (h : exn -> M S A) :
  keeps I m -> (forall e, keeps I (h e)) -> keeps I (try_catch m h).
Proof.
  intros Hm Hh w r w' Hw E. unfold try_catch in E.
  destruct (m w) as [[[a|e] w1]|] eqn:Em; [| |discriminate].
  - inversion E; subst. eapply Hm; eauto.
  - eapply Hh; [|exact E]. eapply Hm; eauto.
Qed.

Lemma kept_log l fmt args : keeps I (log l fmt args).
Proof. intros w r w' Hw E. inversion E; subst. revert Hw. now apply HI. Qed.

Lemma kept_call c :
  (forall w s, I w ->
     I {| pod_state := s; calls := calls w ++ [c]; logs := logs w;
          CSV_STREAM_FIELD_NAMES := CSV_STREAM_FIELD_NAMES w; files := files w |}) ->
  keeps I (call pod c).
Proof.
  intros Hc w r w' Hw E. unfold call in E.
  destruct (pod c (pod_state w)) as [r0 s]. inversion E; subst. now apply Hc.
Qed.

End CallsKept.

Lemma calls_since_calls_only {S} before p : calls_only (calls_since (S := S) before p).
Proof. intros w w' E (made & H1 & H2). exists made. now rewrite E. Qed.

Lemma calls_since_call {S} before p c :
  p c = true ->
  forall (w : World S) (s : S),
    calls_since before p w ->
    calls_since before p
      {| pod_state := s; calls := calls w ++ [c]; logs := logs w;
         CSV_STREAM_FIELD_NAMES := CSV_STREAM_FIELD_NAMES w; files := files w |}.
Proof.
  intros Hc w s (made & E & Hall). exists (made ++ [c]). cbn [calls].
  rewrite E, <- app_assoc. split; [reflexivity|].
  rewrite forallb_app, Hall. cbn. now rewrite Hc.
Qed.

Ltac kept_step p_holds :=
  first
    [ apply kept_ret | apply kept_raise | apply kept_diverge
    | apply kept_log; apply calls_since_calls_only
    | apply kept_call; apply calls_since_call; p_holds
    | apply kept_bind; [|intros ?] | apply kept_try; [|intros ?]
    | match goal with
      | |- keeps _ (if ?b then _ else _) => destruct b
      | |- keeps _ (match ?x with _ => _ end) => destruct x
      end ].

Section Calls.

Context {S : Type}.
Variable pod : forall c : Bdk.call, S -> result (Bdk.ret c) * S.
Variable bot_info : UserV2.
Variable i : string.
Hypothesis Hi : stable i.
Variable before : list Bdk.call.

Lemma update_room_calls_kept fuel : forall settings pre_check,
  keeps (calls_since before (about i (user_id bot_info)))
    (update_room pod bot_info fuel i settings pre_check).
Proof.
  induction fuel as [|fuel IH]; intros settings pre_check.
  - apply kept_diverge.
  - rewrite update_room_S. cbv zeta. rewrite Hi.
    unfold update_room_try, get_room_info, json_loads_body,
      _promote_self_and_update_room, _add_self_and_update_room, _add_self_to_room,
      _promote_self_to_owner, _remove_self_from_room, _demote_self_for_room,
      _update_room_exception_handler, json_loads_body.
    rewrite ?Hi.
    repeat first
      [ apply IH
      | kept_step ltac:(cbn [about]; rewrite ?String.eqb_refl, ?Z.eqb_refl; reflexivity) ].
Qed.

End Calls.


(** X12: for an identifier whose normal form is stable, every call that
    [update_room] makes, recovery included, is about that room, and every
    membership call is on the bot itself; it never lists the rooms. *)
Theorem update_room_calls_only_its_room {S}
    (pod : forall c : Bdk.call, S -> result (Bdk.ret c) * S) (bot_info : UserV2)
    fuel stream_id settings pre_check w r w' :
  stable (_make_b64_id_safe stream_id) ->
  update_room pod bot_info fuel stream_id settings pre_check w = Some (r, w') ->
  exists made,
    calls w' = calls w ++ made
    /\ forallb (about (_make_b64_id_safe stream_id) (user_id bot_info)) made = true.
Proof.
  intros Hi H. rewrite update_room_normalises in H by assumption.
  apply (update_room_calls_kept pod bot_info (_make_b64_id_safe stream_id) Hi
           (calls w) fuel settings pre_check w r w'); [|exact H].
  exists []. split; [now rewrite app_nil_r|reflexivity].
Qed.

(** ** Failures of [update_room] *)

Section Failures.

Context {S : Type}.
Variable pod : forall c : Bdk.call, S -> result (Bdk.ret c) * S.
Variable bot_info : UserV2.
Variable stream_id : string.
Variable settings : attrs.
Hypothesis Hstable : stable (_make_b64_id_safe stream_id).

Let i := _make_b64_id_safe stream_id.
Let uid := user_id bot_info.

Ltac enter w pre_check Hpre :=
  let Hget := fresh "Hget" in
  let Hmod := fresh "Hmod" in
  let current := fresh "current" in
  rewrite update_room_normalises by assumption;
  destruct w as [s_ cs ls fs fl]; unfold fetched, pre_calls, stable in *;
  destruct pre_check;
  [destruct Hpre as (current & Hget & Hmod)|]; cbn [pod_state] in *; subst;
  run; rewrite ?Hstable; [rewrite Hget; run; rewrite Hmod; run|].


(** X10: when the bot has been promoted and the second update is refused for
    a reason that is none of the two that drive the recovery, [update_room]
    raises the first error and stops there: its calls are the update, the
    promotion and the update, and the promotion is not undone. *)
Theorem update_room_failed_retry_keeps_promotion fuel pre_check w s0 t1 s1 s2 t3 m3 s3 :
  fetched pod i settings pre_check w s0 ->
  pod (Bdk.update_room i settings) s0
    = (Raise (ApiException t1 (Some NOT_ROOM_OWNER_MESSAGE)), s1) ->
  pod (Bdk.promote_user_to_room_owner uid i) s1 = (Ok tt, s2) ->
  pod (Bdk.update_room i settings) s2 = (Raise (ApiException t3 m3), s3) ->
  has_message NOT_ROOM_OWNER_MESSAGE m3 = false ->
  has_message (NOT_ROOM_MEMBER_MESSAGE uid) m3 = false ->
  exists w',
    update_room pod bot_info (Datatypes.S (Datatypes.S fuel)) stream_id settings
      pre_check w
      = Some (Raise (ApiException t1 (Some NOT_ROOM_OWNER_MESSAGE)), w')
    /\ pod_state w' = s3
    /\ calls w' = calls w ++ pre_calls i pre_check ++
         [Bdk.update_room i settings;
          Bdk.promote_user_to_room_owner uid i;
          Bdk.update_room i settings].
Proof.
  intros Hpre H1 H2 H3 Hm3 Hm3'.
  subst uid i. enter w pre_check Hpre.
  all: rewrite H1; run; rewrite String.eqb_refl; rewrite H2; run;
    rewrite ?Hstable; rewrite H3; run.
  all: unfold has_message in Hm3, Hm3'; rewrite Hm3; run; rewrite Hm3'; run.
  all: eexists; split; [reflexivity|]; split; [reflexivity|]; cbn;
    rewrite <- ?app_assoc; reflexivity.
Qed.

(** X11: when the bot is not in the room and is not permitted to join
    multilateral rooms, [_add_self_to_room] logs the refusal and returns, so
    that [update_room] goes on to promote the bot; that promotion raising,
    [update_room] raises the first error after four calls. *)
Theorem update_room_multilateral_refused fuel pre_check w s0 t1 t2 t3 s1 s2 s3 e4 s4 :
  fetched pod i settings pre_check w s0 ->
  pod (Bdk.update_room i settings) s0
    = (Raise (ApiException t1 (Some NOT_ROOM_OWNER_MESSAGE)), s1) ->
  pod (Bdk.promote_user_to_room_owner uid i) s1
    = (Raise (ApiException t2 (Some (NOT_ROOM_MEMBER_MESSAGE uid))), s2) ->
  pod (Bdk.add_member_to_room uid i) s2
    = (Raise (ApiException t3 (Some NOT_ABLE_TO_JOIN_MULTILATERAL_ROOMS)), s3) ->
  pod (Bdk.promote_user_to_room_owner uid i) s3 = (Raise e4, s4) ->
  exists w',
    update_room pod bot_info (Datatypes.S (Datatypes.S fuel)) stream_id settings
      pre_check w
      = Some (Raise (ApiException t1 (Some NOT_ROOM_OWNER_MESSAGE)), w')
    /\ pod_state w' = s4
    /\ In (entry ERROR
             "[{}] Unable to join multilateral room. Please enable multilateral room entitlement for {}."
             [AStr i; AInt uid]) (logs w')
    /\ calls w' = calls w ++ pre_calls i pre_check ++
         [Bdk.update_room i settings;
          Bdk.promote_user_to_room_owner uid i;
          Bdk.add_member_to_room uid i;
          Bdk.promote_user_to_room_owner uid i].
Proof.
  intros Hpre H1 H2 H3 H4. subst uid i. enter w pre_check Hpre.
  all: rewrite H1; run; rewrite String.eqb_refl; rewrite H2; run;
    rewrite String.eqb_refl; rewrite H3; run; rewrite String.eqb_refl;
    rewrite H4; run.
  all: destruct e4; run.
  all: eexists; split; [reflexivity|]; split; [reflexivity|]; cbn;
    (split; [rewrite !in_app_iff; cbn; tauto|rewrite <- ?app_assoc; reflexivity]).
Qed.

End Failures.


Lemma update_room_calls_only_its_room_witness :
  exists made,
    calls (run_to (update_room (step 7) bot 2 "R" want true) (start outsider))
      = calls (start outsider) ++ made
    /\ forallb (about (_make_b64_id_safe "R") (user_id bot)) made = true.
Proof.
  apply (update_room_calls_only_its_room (step 7) bot 2 "R" want true (start outsider)
           (Ok updated_R)
           (run_to (update_room (step 7) bot 2 "R" want true) (start outsider))).
  - reflexivity.
  - vm_compute. reflexivity.
Defined.


Lemma update_room_failed_retry_keeps_promotion_witness :
  exists w',
    update_room Replay.step bot 2 "R" want false
      (Replay.start [Some Replay.not_owner; None; Some Replay.unavailable])
      = Some (Raise Replay.not_owner, w')
    /\ pod_state w' = []
    /\ calls w' = [Bdk.update_room "R" want;
                   Bdk.promote_user_to_room_owner 7 "R";
                   Bdk.update_room "R" want].
Proof.
  apply (update_room_failed_retry_keeps_promotion Replay.step bot "R" want eq_refl
           0 false
           (Replay.start [Some Replay.not_owner; None; Some Replay.unavailable])
           [Some Replay.not_owner; None; Some Replay.unavailable]
           "(403) Forbidden" [None; Some Replay.unavailable]
           [Some Replay.unavailable] "(503) Service Unavailable" None []);
    reflexivity.
Defined.

Lemma update_room_multilateral_refused_witness :
  exists w',
    update_room Replay.step bot 2 "R" want false
      (Replay.start [Some Replay.not_owner; Some (Replay.not_member 7);
                     Some Replay.no_multilateral; Some (Replay.not_member 7)])
      = Some (Raise Replay.not_owner, w')
    /\ pod_state w' = []
    /\ In (entry ERROR
             "[{}] Unable to join multilateral room. Please enable multilateral room entitlement for {}."
             [AStr "R"; AInt 7]) (logs w')
    /\ calls w' = [Bdk.update_room "R" want;
                   Bdk.promote_user_to_room_owner 7 "R";
                   Bdk.add_member_to_room 7 "R";
                   Bdk.promote_user_to_room_owner 7 "R"].
Proof.
  apply (update_room_multilateral_refused Replay.step bot "R" want eq_refl
           0 false
           (Replay.start [Some Replay.not_owner; Some (Replay.not_member 7);
                          Some Replay.no_multilateral; Some (Replay.not_member 7)])
           [Some Replay.not_owner; Some (Replay.not_member 7);
            Some Replay.no_multilateral; Some (Replay.not_member 7)]
           "(403) Forbidden" "(403) Forbidden" "(403) Forbidden"
           [Some (Replay.not_member 7); Some Replay.no_multilateral;
            Some (Replay.not_member 7)]
           [Some Replay.no_multilateral; Some (Replay.not_member 7)]
           [Some (Replay.not_member 7)] (Replay.not_member 7) []);
    reflexivity.
Defined.

(** ** The rows of an import *)

Ltac run_csv :=
  cbv beta iota zeta delta
    [update_rooms_from_csv_row csv_row_failure writerow write_line
     update_room update_room_try try_catch bind ret raise log call emit
     get_room_info json_loads_body has_message
     _promote_self_and_update_room _add_self_and_update_room
     _add_self_to_room _promote_self_to_owner _remove_self_from_room
     _demote_self_for_room _update_room_exception_handler negb
     pod_state calls logs CSV_STREAM_FIELD_NAMES files].

Lemma dict_get_set_same {A} k (v : A) d : Dict.get k (Dict.set k v d) = Some v.
Proof.
  induction d as [|[k' v'] r IH]; cbn.
  - now rewrite String.eqb_refl.
  - destruct (String.eqb k k') eqn:E; cbn; rewrite ?String.eqb_refl, ?E; auto.
Qed.

Section CsvRows.

Context {S : Type}.
Variable pod : forall c : Bdk.call, S -> result (Bdk.ret c) * S.
Variable bot_info : UserV2.


Ltac settings_of incoming Hset :=
  let entries := fresh "entries" in
  let r := fresh "r" in
  let Eparse := fresh "Eparse" in
  destruct incoming as [?|];
  [ inversion Hset; subst; clear Hset
  | destruct (_csv_room_settings_to_v3_room_attributes _) as [entries r] eqn:Eparse;
    cbn [snd] in Hset; subst r ];
  run_csv.

(** X14: a row whose update is refused, for another reason than the bot not
    being an owner, is written back with the status FAILURE and the message
    of the refusal, or the text of the error when its body has no message;
    the room has been read by the pre-check of [update_room], after the one
    of the import when it is asked for, and the update has been sent once. *)
Theorem csv_row_update_refused fuel out fields incoming flag pre_check row room raw
    settings w s0 current s1 text message s2 :
  Dict.get "streamId" room = Some (VStr raw) ->
  row_settings incoming (normalised_row raw room) = Ok settings ->
  stable (row_id raw) ->
  fetched pod (row_id raw) settings pre_check w s0 ->
  pod (Bdk.get_room_info (row_id raw)) s0 = (Ok current, s1) ->
  _check_room_modified (room_attributes current) settings = true ->
  pod (Bdk.update_room (row_id raw) settings) s1
    = (Raise (ApiException text message), s2) ->
  has_message NOT_ROOM_OWNER_MESSAGE message = false ->
  exists w',
    update_rooms_from_csv_row pod bot_info (Datatypes.S fuel) out fields incoming flag
      pre_check row room w = Some (Ok tt, w')
    /\ pod_state w' = s2
    /\ calls w' = calls w ++ pre_calls (row_id raw) pre_check
                  ++ [Bdk.get_room_info (row_id raw);
                      Bdk.update_room (row_id raw) settings]
    /\ files w'
       = appended out
           (csv_line fields
              (failure_row (normalised_row raw room) (ApiException text message))) w.
Proof.
  intros Hid Hset Hstable Hpre Hget Hmod Hupd Hmsg.
  destruct w as [s cs ls fs fl].
  unfold row_settings, normalised_row, row_id, stable, fetched, pre_calls in *.
  run_csv. rewrite Hid. run_csv. settings_of incoming Hset.
  all: destruct pre_check;
    [destruct Hpre as (current0 & Hget0 & Hmod0)|]; cbn [pod_state] in *; subst;
    run_csv; rewrite ?Hstable;
    [rewrite Hget0; run_csv; rewrite Hmod0; run_csv; rewrite ?Hstable|].
  all: rewrite Hget; run_csv; rewrite Hmod; run_csv; rewrite Hupd; run_csv.
  all: unfold has_message in Hmsg; rewrite Hmsg; run_csv.
  all: rewrite dict_get_set_same; run_csv.
  all: eexists; split; [reflexivity|]; cbn [pod_state calls files];
    split; [reflexivity|]; split; [rewrite <- ?app_assoc; reflexivity|].
  all: unfold appended, csv_line, failure_row, failure_reason; cbn [files];
    destruct message; reflexivity.
Qed.

(** X15: without the pre-check of the import, a row is still passed to
    [update_room] with its own pre-check: when the settings of the row match
    those of the room, the room is read, nothing is written to the pod, and
    the row is reported with the status SUCCESS, not SKIPPED. *)
Theorem csv_row_without_pre_check_still_skips fuel out fields incoming flag row room
    raw settings w current s' :
  Dict.get "streamId" room = Some (VStr raw) ->
  row_settings incoming (normalised_row raw room) = Ok settings ->
  stable (row_id raw) ->
  pod (Bdk.get_room_info (row_id raw)) (pod_state w) = (Ok current, s') ->
  _check_room_modified (room_attributes current) settings = false ->
  exists w',
    update_rooms_from_csv_row pod bot_info (Datatypes.S fuel) out fields incoming flag
      false row room w = Some (Ok tt, w')
    /\ pod_state w' = s'
    /\ calls w' = calls w ++ [Bdk.get_room_info (row_id raw)]
    /\ Dict.get "status" (success_row current flag) = Some (VStr "SUCCESS")
    /\ files w' = appended out (csv_line fields (success_row current flag)) w.
Proof.
  intros Hid Hset Hstable Hget Hmod.
  destruct w as [s cs ls fs fl].
  unfold row_settings, normalised_row, row_id, stable in *. cbn [pod_state] in *.
  run_csv. rewrite Hid. run_csv. settings_of incoming Hset.
  all: rewrite ?Hstable; rewrite Hget; run_csv; rewrite Hmod; run_csv.
  all: eexists; split; [reflexivity|]; cbn [pod_state calls files];
    split; [reflexivity|]; split; [reflexivity|];
    split; [apply dict_get_set_same|reflexivity].
Qed.

(** X16: a row whose settings differ from those of the room is updated and
    reported with the status SUCCESS and the settings that the update
    returned; with the pre-check of the import the room is read twice before
    the update is sent, once by the import and once by [update_room]. *)
Theorem csv_row_updated fuel out fields incoming flag pre_check row room raw
    settings w s0 current s1 updated s2 :
  Dict.get "streamId" room = Some (VStr raw) ->
  row_settings incoming (normalised_row raw room) = Ok settings ->
  stable (row_id raw) ->
  fetched pod (row_id raw) settings pre_check w s0 ->
  pod (Bdk.get_room_info (row_id raw)) s0 = (Ok current, s1) ->
  _check_room_modified (room_attributes current) settings = true ->
  pod (Bdk.update_room (row_id raw) settings) s1 = (Ok updated, s2) ->
  exists w',
    update_rooms_from_csv_row pod bot_info (Datatypes.S fuel) out fields incoming flag
      pre_check row room w = Some (Ok tt, w')
    /\ pod_state w' = s2
    /\ calls w' = calls w ++ pre_calls (row_id raw) pre_check
                  ++ [Bdk.get_room_info (row_id raw);
                      Bdk.update_room (row_id raw) settings]
    /\ files w' = appended out (csv_line fields (success_row updated flag)) w.
Proof.
  intros Hid Hset Hstable Hpre Hget Hmod Hupd.
  destruct w as [s cs ls fs fl].
  unfold row_settings, normalised_row, row_id, stable, fetched, pre_calls in *.
  run_csv. rewrite Hid. run_csv. settings_of incoming Hset.
  all: destruct pre_check;
    [destruct Hpre as (current0 & Hget0 & Hmod0)|]; cbn [pod_state] in *; subst;
    run_csv; rewrite ?Hstable;
    [rewrite Hget0; run_csv; rewrite Hmod0; run_csv; rewrite ?Hstable|].
  all: rewrite Hget; run_csv; rewrite Hmod; run_csv; rewrite Hupd; run_csv.
  all: eexists; split; [reflexivity|]; cbn [pod_state calls files];
    split; [reflexivity|]; split; [rewrite <- ?app_assoc; reflexivity|reflexivity].
Qed.

End CsvRows.

(** ** The lines of an import *)

Section Lines.

Context {S : Type}.
Variable pod : forall c : Bdk.call, S -> result (Bdk.ret c) * S.
Variable bot_info : UserV2.
Variable out : string.

Lemma files_eq_files_only (F : gmap string (list (list value))) :
  files_only (S := S) (fun w => files w = F).
Proof. intros w w' _ H1 H2. congruence. Qed.

Lemma writes_writes_last {A} n (m : M S A) : writes out n m -> writes_last out n m.
Proof. intros H w r w' E. destruct (H w r w' E) as [[a ->] Hl]. exact Hl. Qed.

Lemma writes_last_kept {A} (m : M S A) :
  (forall F, keeps (fun w => files w = F) m) -> writes_last out 0 m.
Proof.
  intros H w r w' E. unfold lines_of.
  rewrite (H (files w) w r w' eq_refl E). destruct r; lia.
Qed.

Lemma writes_last_ret {A} (a : A) : writes_last (S := S) out 0 (ret a).
Proof. intros w r w' E. inversion E; subst. lia. Qed.

Lemma writes_last_raise {A} n e : writes_last (S := S) out n (raise (A := A) e).
Proof. intros w r w' E. inversion E; subst. lia. Qed.

Lemma writes_last_bind {A B} n (m : M S A) (k : A -> M S B) :
  writes_last out 0 m -> (forall a, writes_last out n (k a)) ->
  writes_last out n (bind m k).
Proof.
  intros Hm Hk w r w' E. unfold bind in E.
  destruct (m w) as [[[a|e] w1]|] eqn:Em; [| |discriminate].
  - rewrite (Hk a w1 r w' E), (Hm w _ _ Em). lia.
  - inversion E; subst. exact (Hm w _ _ Em).
Qed.

Lemma writes_last_log l fmt args : writes_last (S := S) out 0 (log l fmt args).
Proof. intros w r w' E. inversion E; subst. unfold lines_of. cbn. lia. Qed.

Lemma writes_last_emit es : writes_last (S := S) out 0 (emit es).
Proof. intros w r w' E. inversion E; subst. unfold lines_of. cbn. lia. Qed.

Lemma writes_last_get_room_info stream_id : writes_last out 0 (get_room_info pod stream_id).
Proof.
  apply writes_last_kept. intros F.
  apply (keeps_get_room_info pod _ (files_eq_files_only F)).
Qed.

Lemma writes_last_update_room fuel stream_id settings pre_check :
  writes_last out 0 (update_room pod bot_info fuel stream_id settings pre_check).
Proof.
  apply writes_last_kept. intros F.
  apply (keeps_update_room pod bot_info _ (files_eq_files_only F)).
Qed.

Lemma writes_ret {A} (a : A) : writes (S := S) out 0 (ret a).
Proof. intros w r w' E. inversion E; subst. split; [eauto|lia]. Qed.

Lemma writes_log l fmt args : writes (S := S) out 0 (log l fmt args).
Proof.
  intros w r w' E. inversion E; subst. split; [eauto|]. unfold lines_of. cbn. lia.
Qed.

Lemma writes_writerow fields rowdict : writes (S := S) out 1 (writerow out fields rowdict).
Proof.
  intros w r w' E. inversion E; subst. split; [eauto|].
  unfold lines_of. cbn [files]. rewrite lookup_insert_eq.
  cbv [default from_option Datatypes.id]. rewrite length_app. cbn [length]. lia.
Qed.

Lemma writes_bind {A B} a b (m : M S A) (k : A -> M S B) :
  writes out a m -> (forall x, writes out b (k x)) -> writes out (a + b) (bind m k).
Proof.
  intros Hm Hk w r w' E. unfold bind in E.
  destruct (m w) as [[[x|e] w1]|] eqn:Em; [| |discriminate].
  - destruct (Hk x w1 r w' E) as [Hr Hl]. destruct (Hm w _ _ Em) as [_ Hl1].
    split; [exact Hr|]. lia.
  - destruct (Hm w _ _ Em) as [[x Hx] _]. discriminate.
Qed.

Lemma writes_try {A} n (m : M S A) (h : exn -> M S A) :
  writes_last out n m -> (forall e, writes out n (h e)) -> writes out n (try_catch m h).
Proof.
  intros Hm Hh w r w' E. unfold try_catch in E.
  destruct (m w) as [[[x|e] w1]|] eqn:Em; [| |discriminate].
  - inversion E; subst. split; [eauto|]. exact (Hm w _ _ Em).
  - destruct (Hh e w1 r w' E) as [Hr Hl]. split; [exact Hr|].
    rewrite Hl, (Hm w _ _ Em). lia.
Qed.

Lemma writes_csv_row_failure fields row room e :
  Dict.mem "streamId" room = true ->
  writes (S := S) out 1 (csv_row_failure out fields row room e).
Proof.
  unfold Dict.mem, csv_row_failure. intros H.
  destruct (Dict.get "streamId" room) as [stream_id|]; [|discriminate].
  apply (writes_bind 0 1); [apply writes_log|]. intros ?. apply writes_writerow.
Qed.

Ltac last_step :=
  first
    [ apply writes_last_ret | apply writes_last_raise
    | apply writes_last_log | apply writes_last_emit
    | apply writes_last_get_room_info | apply writes_last_update_room
    | apply writes_writes_last, writes_writerow
    | apply writes_last_bind; [|intros ?]
    | match goal with
      | |- writes_last _ _ (if ?b then _ else _) => destruct b
      | |- writes_last _ _ (let '(_, _) := ?x in _) => destruct x
      | |- writes_last _ _ (match ?x with _ => _ end) => destruct x
      end ].

Lemma writes_csv_row fuel fields incoming flag pre_check row room :
  writes out (if Dict.mem "streamId" room then 1 else 0)
    (update_rooms_from_csv_row pod bot_info fuel out fields incoming flag pre_check
       row room).
Proof.
  unfold update_rooms_from_csv_row.
  apply (writes_bind 0); [apply writes_log|]. intros ?.
  unfold Dict.mem.
  destruct (Dict.get "streamId" room) as [[| |raw|]|] eqn:Hid;
    try (apply writes_csv_row_failure; unfold Dict.mem; now rewrite Hid).
  - apply writes_try.
    + repeat last_step.
    + intros e. apply writes_csv_row_failure. unfold Dict.mem.
      now rewrite dict_get_set_same.
  - apply writes_log.
Qed.

Lemma writes_csv_loop fuel fields incoming flag pre_check rooms_csv : forall row,
  writes out (length (with_stream_id rooms_csv))
    (update_rooms_from_csv_loop pod bot_info fuel out fields incoming flag pre_check
       row rooms_csv).
Proof.
  induction rooms_csv as [|room rooms_csv IH]; intros row;
    cbn [update_rooms_from_csv_loop].
  - apply writes_ret.
  - replace (length (with_stream_id (room :: rooms_csv)))
      with ((if Dict.mem "streamId" room then 1 else 0)
            + length (with_stream_id rooms_csv))
      by (unfold with_stream_id; cbn [List.filter];
          destruct (Dict.mem "streamId" room); reflexivity).
    apply writes_bind; [apply writes_csv_row|]. intros ?. apply IH.
Qed.

End Lines.

(** X17: an import that ends does not raise, whatever the pod answers and
    whatever the rows hold, and its output has, after the header, one line
    for each row of the input that has a [streamId] column. *)
Theorem update_rooms_from_csv_one_line_per_row {S}
    (pod : forall c : Bdk.call, S -> result (Bdk.ret c) * S) (bot_info : UserV2)
    fuel input_file rooms_csv output_file incoming flag pre_check w r w' :
  update_rooms_from_csv pod bot_info fuel input_file rooms_csv output_file incoming
    flag pre_check w = Some (r, w') ->
  r = Ok tt
  /\ lines_of (out_path output_file) w' = 1 + length (with_stream_id rooms_csv).
Proof.
  intros H. unfold update_rooms_from_csv in H.
  set (out := out_path output_file).
  assert (Hloop : exists fields w0,
    lines_of out w0 = 1
    /\ update_rooms_from_csv_loop pod bot_info fuel out fields incoming flag pre_check 0
         rooms_csv w0 = Some (r, w')).
  { destruct w as [s cs ls fs fl].
    unfold bind, log, ret, open_w, extend_field_names, get_field_names,
      writeheader, write_line in H.
    cbn [pod_state calls logs CSV_STREAM_FIELD_NAMES files] in *.
    subst out. unfold out_path.
    destruct output_file as [f|]; [destruct (String.eqb f "")|]; destruct flag;
      cbn [pod_state calls logs CSV_STREAM_FIELD_NAMES files] in H;
      (eexists; eexists; split; [|exact H]);
      unfold lines_of; cbn [files]; rewrite !lookup_insert_eq; reflexivity. }
  destruct Hloop as (fields & w0 & H0 & Hl).
  destruct (writes_csv_loop pod bot_info out fuel fields incoming flag pre_check
              rooms_csv 0 w0 r w' Hl) as [[[] ->] Hn].
  split; [reflexivity|]. rewrite Hn, H0. reflexivity.
Qed.


Lemma csv_row_update_refused_witness :
  exists w',
    update_rooms_from_csv_row (step 7) bot 1 "out.csv" Rows.fields None false true 1
      Rows.B_off (start three) = Some (Ok tt, w')
    /\ pod_state w' = three
    /\ calls w' = [Bdk.get_room_info "B"; Bdk.get_room_info "B";
                   Bdk.update_room "B" want]
    /\ files w'
       = <["out.csv" :=
            [[VStr "B"; VStr "false"; VStr "FAILURE";
              VStr "Internal server error."]]]> ∅.
Proof.
  apply (csv_row_update_refused (step 7) bot 0 "out.csv" Rows.fields None false true 1
           Rows.B_off "B" want (start three) three
           (detail (a_room "B" true true 1 true)) three
           "(500) Internal Server Error" (Some "Internal server error.") three).
  - reflexivity.
  - vm_compute. reflexivity.
  - reflexivity.
  - exists (detail (a_room "B" true true 1 true)). split; vm_compute; reflexivity.
  - vm_compute. reflexivity.
  - vm_compute. reflexivity.
  - vm_compute. reflexivity.
  - reflexivity.
Defined.

Lemma csv_row_without_pre_check_still_skips_witness :
  exists w',
    update_rooms_from_csv_row (step 7) bot 1 "out.csv" Rows.fields None false false 1
      Rows.A_as_is (start three) = Some (Ok tt, w')
    /\ pod_state w' = three
    /\ calls w' = [Bdk.get_room_info "A"]
    /\ Dict.get "status" (success_row Rows.A false) = Some (VStr "SUCCESS")
    /\ files w'
       = <["out.csv" := [[VStr "A"; VStr "true"; VStr "SUCCESS"; VStr ""]]]> ∅.
Proof.
  apply (csv_row_without_pre_check_still_skips (step 7) bot 0 "out.csv" Rows.fields None
           false 1 Rows.A_as_is "A" (<["members_can_invite" := VBool true]> ∅)
           (start three) Rows.A three).
  - reflexivity.
  - vm_compute. reflexivity.
  - reflexivity.
  - vm_compute. reflexivity.
  - vm_compute. reflexivity.
Defined.

Lemma csv_row_updated_witness :
  exists w',
    update_rooms_from_csv_row (step 7) bot 1 "out.csv" Rows.fields None false true 1
      Rows.A_off (start three) = Some (Ok tt, w')
    /\ pod_state w'
       = <["A" := {| detail := Rows.A_updated; bot_member := true; bot_owner := true;
                     other_owners := 1; out_of_order := false |}]> three
    /\ calls w' = [Bdk.get_room_info "A"; Bdk.get_room_info "A";
                   Bdk.update_room "A" want]
    /\ files w'
       = <["out.csv" := [[VStr "A"; VStr "false"; VStr "SUCCESS"; VStr ""]]]> ∅.
Proof.
  apply (csv_row_updated (step 7) bot 0 "out.csv" Rows.fields None false true 1
           Rows.A_off "A" want (start three) three Rows.A three Rows.A_updated
           (<["A" := {| detail := Rows.A_updated; bot_member := true;
                        bot_owner := true; other_owners := 1;
                        out_of_order := false |}]> three)).
  - reflexivity.
  - vm_compute. reflexivity.
  - reflexivity.
  - exists Rows.A. split; vm_compute; reflexivity.
  - vm_compute. reflexivity.
  - vm_compute. reflexivity.
  - vm_compute. reflexivity.
Defined.

Lemma update_rooms_from_csv_one_line_per_row_witness :
  Ok tt = Ok tt
  /\ lines_of (out_path (Some "out.csv")) (run_to Rows.import_four (start three))
     = 1 + length (with_stream_id [Rows.A_off; Rows.no_id; Rows.B_off; Rows.A_maybe]).
Proof.
  apply (update_rooms_from_csv_one_line_per_row (step 7) bot 2 "in.csv"
           [Rows.A_off; Rows.no_id; Rows.B_off; Rows.A_maybe] (Some "out.csv") None
           false true (start three) (Ok tt) (run_to Rows.import_four (start three))).
  vm_compute. reflexivity.
Defined.

(** ** The export *)

Section ExportCsv.

Context {S : Type}.
Variable pod : forall c : Bdk.call, S -> result (Bdk.ret c) * S.

Let reads (streams : list V2AdminStreamInfo) : list Bdk.call :=
  List.map (fun stream => Bdk.get_room_info (_make_b64_id_safe (id stream))) streams.

Lemma lines_of_write_line out line (s : S) cs ls fs fl :
  lines_of out
    {| pod_state := s; calls := cs; logs := ls; CSV_STREAM_FIELD_NAMES := fs;
       files := <[out := default [] (fl !! out) ++ [line]]> fl |}
  = lines_of out
      {| pod_state := s; calls := cs; logs := ls; CSV_STREAM_FIELD_NAMES := fs;
         files := fl |} + 1.
Proof.
  unfold lines_of. cbn [files]. rewrite lookup_insert_eq.
  cbv [default from_option Datatypes.id]. rewrite length_app. cbn [length]. lia.
Qed.

Lemma export_rooms_loop_returns out F flag streams : forall w w',
  export_rooms_loop pod out F flag streams w = Some (Ok tt, w') ->
  calls w' = calls w ++ reads streams
  /\ lines_of out w' = lines_of out w + length streams.
Proof.
  induction streams as [|stream streams IH]; intros [s cs ls fs fl] w' H;
    cbn [export_rooms_loop] in H.
  - inversion H; subst. cbn [reads List.map length]. rewrite app_nil_r.
    split; [reflexivity|lia].
  - cbv beta iota zeta delta
      [bind log get_room_info call writerow write_line ret
       pod_state calls logs CSV_STREAM_FIELD_NAMES files] in H.
    destruct (pod (Bdk.get_room_info (_make_b64_id_safe (id stream))) s)
      as [[room|e] s1]; cbv beta iota zeta in H; [|discriminate].
    apply IH in H as [Hc Hl]. cbn [calls] in Hc.
    rewrite lines_of_write_line in Hl. unfold lines_of in *. cbn [files] in *.
    split.
    + rewrite Hc, <- app_assoc. reflexivity.
    + rewrite Hl. cbn [length]. lia.
Qed.


Ltac open_export H w Eb :=
  unfold export_rooms_to_csv in H; destruct w as [s cs ls fs fl];
  unfold get_rooms_by_filter, call in H;
  unfold bind at 1 in H; unfold log at 1 in H;
  cbn [pod_state calls logs CSV_STREAM_FIELD_NAMES files] in H;
  unfold bind at 1 in H; unfold try_catch at 1 in H;
  match type of H with
  | match match ?body with _ => _ end with _ => _ end = _ =>
      destruct body as [[[[] | ?e] ?w1]|] eqn:Eb
  end; [| |discriminate];
  revert Eb;
  unfold bind, log, ret, open_w, extend_field_names, get_field_names,
    writeheader, write_line;
  cbn [pod_state calls logs CSV_STREAM_FIELD_NAMES files];
  intros Eb.

(** X18: an export that returns has made the listing and then one read for
    every room listed, in the order of the listing, has made no other call,
    and its file has, after the header, one line for each of them. *)
Theorem export_rooms_to_csv_reads_every_room stream_filter output_file flag w w' :
  export_rooms_to_csv pod stream_filter output_file flag w = Some (Ok tt, w') ->
  exists streams,
    fst (pod (Bdk.list_all_streams_admin stream_filter) (pod_state w)) = Ok streams
    /\ calls w' = calls w ++ export_calls stream_filter streams
    /\ forallb Bdk.is_write (export_calls stream_filter streams) = false
    /\ lines_of output_file w' = 1 + length streams.
Proof.
  intros H. open_export H w Eb.
  - unfold log in H. inversion H; subst w'. clear H.
    destruct (pod (Bdk.list_all_streams_admin stream_filter) s) as [[streams|e] s1];
      [|discriminate].
    exists streams. split; [reflexivity|].
    assert (Hloop : exists F w0,
      calls w0 = cs ++ [Bdk.list_all_streams_admin stream_filter]
      /\ lines_of output_file w0 = 1
      /\ export_rooms_loop pod output_file F flag streams w0 = Some (Ok tt, w1)).
    { destruct flag; cbn [pod_state calls logs CSV_STREAM_FIELD_NAMES files] in Eb;
        (eexists; eexists; split; [|split; [|exact Eb]]); [reflexivity| |reflexivity|];
        unfold lines_of; cbn [files]; rewrite !lookup_insert_eq; reflexivity. }
    destruct Hloop as (F & w0 & Hc0 & Hl0 & Hloop).
    apply export_rooms_loop_returns in Hloop as [Hc Hl].
    cbn [calls]. unfold lines_of in *. cbn [files]. unfold export_calls.
    split; [rewrite Hc, Hc0, <- app_assoc; reflexivity|].
    split; [reflexivity|]. rewrite Hl, Hl0. reflexivity.
  - unfold bind, log, raise in H. discriminate.
Qed.


End ExportCsv.

(** ** The updates by filter *)

Section ByFilter.

Context {S : Type}.
Variable pod : forall c : Bdk.call, S -> result (Bdk.ret c) * S.
Variable bot_info : UserV2.






End ByFilter.

Lemma export_rooms_to_csv_reads_every_room_witness :
  exists streams,
    fst (step 7 (Bdk.list_all_streams_admin STREAM_FILTER_INTERNAL_ORIGIN_ACTIVE)
           (pod_state (start three))) = Ok streams
    /\ calls (run_to Rows.export_all (start three))
       = calls (start three) ++ export_calls STREAM_FILTER_INTERNAL_ORIGIN_ACTIVE streams
    /\ forallb Bdk.is_write (export_calls STREAM_FILTER_INTERNAL_ORIGIN_ACTIVE streams)
       = false
    /\ lines_of "out.csv" (run_to Rows.export_all (start three)) = 1 + length streams.
Proof.
  apply (export_rooms_to_csv_reads_every_room (step 7)
           STREAM_FILTER_INTERNAL_ORIGIN_ACTIVE "out.csv" false (start three)
           (run_to Rows.export_all (start three))).
  vm_compute. reflexivity.
Defined.




(** ** The filter of the command line *)

Lemma dict_get_set {A} k k' (v : A) d :
  Dict.get k (Dict.set k' v d) = if String.eqb k k' then Some v else Dict.get k d.
Proof.
  induction d as [|[k0 v0] r IH]; cbn [Dict.set Dict.get].
  - reflexivity.
  - destruct (String.eqb k' k0) eqn:E0; cbn [Dict.get].
    + apply String.eqb_eq in E0. subst k0. destruct (String.eqb k k'); reflexivity.
    + rewrite IH. destruct (String.eqb k k0) eqn:E1; [|reflexivity].
      apply String.eqb_eq in E1. subst k0.
      destruct (String.eqb k k') eqn:E2; [|reflexivity].
      apply String.eqb_eq in E2. subst k'. rewrite String.eqb_refl in E0. discriminate.
Qed.

Lemma dict_get_parsed k given : forall filter_flags,
  Dict.get k
    (List.fold_left
       (fun filter_flags opt => parse_filter_settings filter_flags (fst opt) (snd opt))
       given filter_flags)
  = if given_flag k given then Some (VBool true) else Dict.get k filter_flags.
Proof.
  induction given as [|opt given IH]; intros filter_flags; cbn [List.fold_left];
    [reflexivity|].
  rewrite IH. unfold parse_filter_settings, given_flag. cbn [existsb].
  rewrite dict_get_set.
  destruct (existsb (fun opt0 => String.eqb k (fst opt0)) given);
    destruct (String.eqb k (fst opt)); reflexivity.
Qed.

Lemma subscript_flags_given k given :
  In k ALL_AVAILABLE_FILTER_ROOM_FLAGS ->
  subscript (flags_given given) k
  = Ok (if given_flag k given then VBool true else VNone).
Proof.
  intros Hk. unfold subscript, flags_given. rewrite dict_get_parsed.
  destruct (given_flag k given); [reflexivity|].
  cbn in Hk.
  repeat (destruct Hk as [<-|Hk]; [reflexivity|]). contradiction.
Qed.

Ltac read_flags :=
  unfold create_stream_filter, filter_of_flags, one_of, origin_of;
  rewrite !subscript_flags_given by (cbn; tauto).


(** X23: for the flags of a command line and no settings,
    [create_stream_filter] does not raise and logs nothing; its filter is for
    rooms; [public] alone gives the privacy PRIVATE and [private] alone the
    privacy PUBLIC; the origin is INTERNAL only when [internal] was given,
    [internalOrigin] alone setting nothing; and [internal] together with
    [external], like neither of them, leaves the scope open. *)
Theorem create_stream_filter_from_command_line given :
  exists f,
    create_stream_filter (flags_given given) None = ([], Ok f)
    /\ stream_types f = ["ROOM"]
    /\ (given_flag "public" given = true -> given_flag "private" given = false ->
        privacy f = Some "PRIVATE")
    /\ (given_flag "private" given = true -> given_flag "public" given = false ->
        privacy f = Some "PUBLIC")
    /\ (origin f = Some "INTERNAL" -> given_flag "internal" given = true)
    /\ (given_flag "internal" given = given_flag "external" given -> scope f = None).
Proof.
  read_flags.
  destruct (given_flag "internal" given), (given_flag "external" given),
    (given_flag "public" given), (given_flag "private" given),
    (given_flag "internalOrigin" given), (given_flag "externalOrigin" given),
    (given_flag "active" given), (given_flag "inactive" given);
    cbn; eexists; (split; [reflexivity|]); cbn;
    repeat split; intros; congruence.
Qed.

(** X24: when the settings change [discoverable], the filter is for the
    private rooms of internal scope, whatever flags were given, which is
    logged; [update_rooms_by_filter] then lists the active private rooms of
    internal scope and origin. *)
Theorem discoverable_forces_internal_private filter_flags settings v entries f :
  settings !! "discoverable" = Some v ->
  is_none v = false ->
  create_stream_filter filter_flags (Some settings) = (entries, Ok f) ->
  scope f = Some "INTERNAL"
  /\ privacy f = Some "PRIVATE"
  /\ In DISCOVERABLE_ENTRY entries
  /\ forced f
     = {| stream_types := ["ROOM"]; status := Some "ACTIVE";
          origin := Some "INTERNAL"; scope := Some "INTERNAL";
          privacy := Some "PRIVATE" |}.
Proof.
  intros Hd Hv. unfold create_stream_filter.
  destruct (filter_of_flags filter_flags) as [f0|e]; [|discriminate].
  unfold filter_for_settings, is_set. rewrite Hd, Hv. cbn [negb].
  destruct (settings !! "copy_protected") as [cp|]; [|discriminate].
  destruct (settings !! "view_history") as [vh|];
    destruct (negb (is_none cp)); try discriminate;
    destruct (negb (is_none vh)); cbn [and_then];
    intros H; inversion H; subst; clear H;
    cbn; repeat split; tauto.
Qed.


Lemma discoverable_forces_internal_private_witness :
  scope Rows.internal_private = Some "INTERNAL"
  /\ privacy Rows.internal_private = Some "PRIVATE"
  /\ In DISCOVERABLE_ENTRY [DISCOVERABLE_ENTRY]
  /\ forced Rows.internal_private
     = {| stream_types := ["ROOM"]; status := Some "ACTIVE";
          origin := Some "INTERNAL"; scope := Some "INTERNAL";
          privacy := Some "PRIVATE" |}.
Proof.
  apply (discoverable_forces_internal_private
           (flags_given [("external", ""); ("public", "")])
           (<["copy_protected" := VNone]>
              (<["discoverable" := VBool true]> (<["view_history" := VNone]> ∅)))
           (VBool true) [DISCOVERABLE_ENTRY] Rows.internal_private).
  - vm_compute. reflexivity.
  - reflexivity.
  - vm_compute. reflexivity.
Defined.
